(** * Auto-sign PDF: field extraction, name layout, overlay and merge

    A shallow embedding of [app.py]: the two regular-expression searches of
    [extract_info], the line-splitting and font-size logic and the signature
    logic of [create_overlay], and the page merging of [main].

    Text is modelled as lists of 8-bit characters.  The embedding is that of
    Python's [str] operations on 7-bit ASCII text: whitespace is the ASCII
    part of [str.isspace], case mapping is the ASCII one. *)

From Stdlib Require Import Ascii String Bool Arith ZArith QArith Lia List.
Import ListNotations.
Close Scope Q_scope.
Open Scope nat_scope.

Set Implicit Arguments.

(** ** Python strings *)

Definition str := list ascii.

(** A string literal of the source. *)
Definition py (s : string) : str := list_ascii_of_string s.

Definition char_in_range (lo hi c : ascii) : bool :=
  (N_of_ascii lo <=? N_of_ascii c)%N && (N_of_ascii c <=? N_of_ascii hi)%N.

(** [str.isspace] on one ASCII character: TAB, LF, VT, FF, CR, the four
    separators FS, GS, RS, US and the space. *)
Definition isspace (c : ascii) : bool :=
  let n := N_of_ascii c in
  ((9 <=? n) && (n <=? 13) || (28 <=? n) && (n <=? 32))%N.

Definition isdigit (c : ascii) : bool := char_in_range "0" "9" c.

Definition upper_char (c : ascii) : ascii :=
  if char_in_range "a" "z" c then ascii_of_N (N_of_ascii c - 32) else c.

Definition lower_char (c : ascii) : ascii :=
  if char_in_range "A" "Z" c then ascii_of_N (N_of_ascii c + 32) else c.

(** [s.upper()], [s.lower()] *)
Definition str_upper (s : str) : str := map upper_char s.
Definition str_lower (s : str) : str := map lower_char s.

(** [s.capitalize()]: first character upper-cased, the rest lower-cased. *)
Definition capitalize (s : str) : str :=
  match s with
  | [] => []
  | c :: r => upper_char c :: str_lower r
  end.

Definition str_eqb (a b : str) : bool :=
  if list_eq_dec ascii_dec a b then true else false.

(** [s.startswith(p)] *)
Fixpoint startswith (p s : str) : bool :=
  match p, s with
  | [], _ => true
  | _ :: _, [] => false
  | a :: p', b :: s' => Ascii.eqb a b && startswith p' s'
  end.

(** [needle in hay] *)
Fixpoint str_in (needle hay : str) : bool :=
  startswith needle hay ||
  match hay with
  | [] => false
  | _ :: hay' => str_in needle hay'
  end.

(** [sep.join(ws)] *)
Fixpoint join (sep : str) (ws : list str) : str :=
  match ws with
  | [] => []
  | [w] => w
  | w :: ws' => w ++ sep ++ join sep ws'
  end.

(** [s.split()]: the maximal runs of non-whitespace characters, in order.
    [cur] is the word being scanned. *)
Fixpoint split_from (cur : str) (s : str) : list str :=
  match s with
  | [] => match cur with [] => [] | _ => [cur] end
  | c :: s' =>
      if isspace c
      then match cur with
           | [] => split_from [] s'
           | _ => cur :: split_from [] s'
           end
      else split_from (cur ++ [c]) s'
  end.

Definition split (s : str) : list str := split_from [] s.

(** [s.lstrip()], [s.rstrip()], [s.strip()] *)
Fixpoint lstrip (s : str) : str :=
  match s with
  | c :: s' => if isspace c then lstrip s' else s
  | [] => []
  end.

Definition rstrip (s : str) : str := rev (lstrip (rev s)).

Definition strip (s : str) : str := rstrip (lstrip s).

(** [s.replace(old, new)] for one-character [old] and [new]. *)
Definition replace_char (old new : ascii) (s : str) : str :=
  map (fun c => if Ascii.eqb c old then new else c) s.

Definition LF : ascii := ascii_of_N 10.
Definition SP : ascii := " "%char.

(** Truthiness of a string: non-empty. *)
Definition truthy (s : str) : bool :=
  match s with [] => false | _ => true end.

(** ** Exceptions and outcomes *)

Inductive exn : Type :=
| IndexError (msg : str)
| AttributeError (msg : str)
| PdfReadError (msg : str).

(** [str(e)] *)
Definition exn_str (e : exn) : str :=
  match e with
  | IndexError msg | AttributeError msg | PdfReadError msg => msg
  end.

(** The result of running a piece of the program: a value, an exception, or
    no answer within the given number of loop iterations. *)
Inductive outcome (A : Type) : Type :=
| Ok (a : A)
| Raise (e : exn)
| OutOfFuel.

Arguments Ok {A} a.
Arguments Raise {A} e.
Arguments OutOfFuel {A}.

Definition bind {A B : Type} (m : outcome A) (k : A -> outcome B) : outcome B :=
  match m with
  | Ok a => k a
  | Raise e => Raise e
  | OutOfFuel => OutOfFuel
  end.

Notation "x <- m ;; k" := (bind m (fun x => k))
  (at level 61, m at next level, right associativity).

(** [while cond: body], with the number of iterations performed. *)
Section While.
Variable St : Type.
Variable cond : St -> bool.
Variable body : St -> outcome St.

Fixpoint while (fuel : nat) (iters : nat) (s : St) : outcome (St * nat) :=
  match fuel with
  | O => OutOfFuel
  | S fuel' =>
      if cond s
      then s' <- body s ;; while fuel' (S iters) s'
      else Ok (s, iters)
  end.
End While.

(** [l.pop()] *)
Definition pop {A : Type} (l : list A) : outcome (A * list A) :=
  match rev l with
  | [] => Raise (IndexError (py "pop from empty list"))
  | x :: r => Ok (x, rev r)
  end.

(** [l[i]] for a non-negative [i] *)
Definition index {A : Type} (l : list A) (i : nat) : outcome A :=
  match nth_error l i with
  | Some x => Ok x
  | None => Raise (IndexError (py "list index out of range"))
  end.

(** [pages[i]] on the page sequence of a pypdf reader, for a non-negative
    [i]: out of range it raises pypdf's own IndexError. *)
Definition page_at {A : Type} (pages : list A) (i : nat) : outcome A :=
  match nth_error pages i with
  | Some x => Ok x
  | None => Raise (IndexError (py "Sequence index out of range"))
  end.

(** ** The name layout of [create_overlay] (lines 46-77) *)

Record LayoutResult : Type := mkLayout {
  line1 : str;
  line2 : str;
  font_size : Q
}.

(** The [for i, word in enumerate(words)] search; [-1] when no word has
    "SDN" in its upper-cased form. *)
Fixpoint find_sdn (i : Z) (words : list str) : Z :=
  match words with
  | [] => (-1)%Z
  | word :: rest =>
      if str_in (py "SDN") (str_upper word) then i
      else find_sdn (i + 1)%Z rest
  end.

Definition sdn_index (words : list str) : Z := find_sdn 0%Z words.

Definition len (s : str) : nat := length s.

Definition rebalance_cond (st : list str * list str) : bool :=
  (30 <? len (join [SP] (fst st))) && (1 <? length (fst st)).

Definition rebalance_body (st : list str * list str)
  : outcome (list str * list str) :=
  p <- pop (fst st) ;; Ok (snd p, fst p :: snd st).

Definition rebalance (fuel : nat) (line1_words line2_words : list str)
  : outcome ((list str * list str) * nat) :=
  while rebalance_cond rebalance_body fuel 0 (line1_words, line2_words).

(** Lines 46-72: the two lines, and the number of loop iterations. *)
Definition split_lines (fuel : nat) (subcon : str)
  : outcome ((str * str) * nat) :=
  let words := split subcon in
  let sdn_index := sdn_index words in
  if negb (sdn_index =? -1)%Z then
    let line1_words := firstn (Z.to_nat sdn_index) words in
    let line2_words := skipn (Z.to_nat sdn_index) words in
    r <- rebalance fuel line1_words line2_words ;;
    Ok ((join [SP] (fst (fst r)), join [SP] (snd (fst r))), snd r)
  else if 2 <? length words then
    let mid := length words / 2 + 1 in
    Ok ((join [SP] (firstn mid words), join [SP] (skipn mid words)), 0)
  else
    Ok ((subcon, []), 0).

(** Lines 74-77. *)
Definition choose_font_size (subcon line1 : str) : Q :=
  if str_in (py "UNIVERSAL CELLULAR") (str_upper subcon) || (30 <? len line1)
  then 4.5%Q else 6%Q.

Definition layout_fuel (fuel : nat) (subcon : str) : outcome LayoutResult :=
  r <- split_lines fuel subcon ;;
  let '((line1, line2), _) := r in
  Ok (mkLayout line1 line2 (choose_font_size subcon line1)).

(** The loop needs no more iterations than there are words. *)
Definition layout (subcon : str) : outcome LayoutResult :=
  layout_fuel (S (length (split subcon))) subcon.

(** ** The overlay of [create_overlay] *)

(** The calls made on the ReportLab canvas, in order. *)
Inductive canvas_op : Type :=
| setFont (name : str) (size : Q)
| drawString (x y : Z) (text : str).

(** Lines 86-88: [first_name]. *)
Definition signature_name (receiver : str) : outcome str :=
  first_name <- (if truthy receiver then index (split receiver) 0 else Ok []) ;;
  Ok (capitalize first_name).

(** The saved canvas: the drawing operations of its single page. *)
Definition create_overlay (subcon receiver date_str : str)
  : outcome (list canvas_op) :=
  lay <- layout subcon ;;
  let can :=
    [setFont (py "Helvetica") (font_size lay);
     drawString 510 742 (line1 lay)]
    ++ (if truthy (line2 lay) then [drawString 510 732 (line2 lay)] else []) in
  first_name <- signature_name receiver ;;
  Ok (can ++ [setFont (py "Times-Italic") 14; drawString 520 665 first_name;
              setFont (py "Helvetica") 10; drawString 500 642 date_str]).

(** ** Regular expressions: the fragment of [re] the two patterns use *)

Inductive cls : Type :=
| CSpace   (* \s *)
| CDigit   (* \d *)
| CDot.    (* . *)

Inductive regex : Type :=
| Lit (l : str)                                (* literal text *)
| Alt (a b : regex)                            (* a|b *)
| Cat (a b : regex)                            (* ab *)
| Rep (c : cls) (min : nat) (greedy : bool)    (* c{min,} and c{min,}? *)
| Grp (a : regex).                             (* (a), group 1 *)

Record flags : Type := mkFlags { IGNORECASE : bool; DOTALL : bool }.

Section Matcher.
Variable fl : flags.
Variable R : Type.

(** A literal character [a] of the pattern against the character [b]. *)
Definition lit_match (a b : ascii) : bool :=
  if IGNORECASE fl then Ascii.eqb (lower_char a) (lower_char b)
  else Ascii.eqb a b.

Definition cls_match (c : cls) (b : ascii) : bool :=
  match c with
  | CSpace => isspace b
  | CDigit => isdigit b
  | CDot => DOTALL fl || negb (Ascii.eqb b LF)
  end.

(** The input left after the literal, when it matches here. *)
Fixpoint match_lit (l s : str) : option str :=
  match l, s with
  | [], _ => Some s
  | _ :: _, [] => None
  | a :: l', b :: s' => if lit_match a b then match_lit l' s' else None
  end.

(** Greedy repetition: as many characters as possible first, then one
    fewer at a time, never fewer than [min]. *)
Fixpoint rep_greedy (c : cls) (min : nat) (s : str) (k : str -> option R)
  : option R :=
  match s with
  | b :: s' =>
      if cls_match c b then
        match rep_greedy c (pred min) s' k with
        | Some r => Some r
        | None => if min =? 0 then k s else None
        end
      else if min =? 0 then k s else None
  | [] => if min =? 0 then k s else None
  end.

(** Lazy repetition: as few characters as possible first. *)
Fixpoint rep_lazy (c : cls) (min : nat) (s : str) (k : str -> option R)
  : option R :=
  match s with
  | b :: s' =>
      match (if min =? 0 then k s else None) with
      | Some r => Some r
      | None => if cls_match c b then rep_lazy c (pred min) s' k else None
      end
  | [] => if min =? 0 then k s else None
  end.

(** Backtracking matcher, in continuation-passing style: [k] receives the
    input left and the text of group 1 so far. *)
Fixpoint exec (r : regex) (s : str) (cap : option str)
  (k : str -> option str -> option R) : option R :=
  match r with
  | Lit l =>
      match match_lit l s with
      | Some s' => k s' cap
      | None => None
      end
  | Alt a b =>
      match exec a s cap k with
      | Some x => Some x
      | None => exec b s cap k
      end
  | Cat a b => exec a s cap (fun s' cap' => exec b s' cap' k)
  | Rep c min true => rep_greedy c min s (fun s' => k s' cap)
  | Rep c min false => rep_lazy c min s (fun s' => k s' cap)
  | Grp a =>
      exec a s cap
        (fun s' _ => k s' (Some (firstn (length s - length s') s)))
  end.
End Matcher.

(** A match object: what [group(1)] gives. *)
Record Match : Type := mkMatch { group1 : option str }.

(** [re.search(r, text, fl)]: the match at the leftmost position that has
    one, or [None]. *)
Fixpoint search (fl : flags) (r : regex) (text : str) : option Match :=
  match exec fl r text None (fun _ cap => Some (mkMatch cap)) with
  | Some m => Some m
  | None =>
      match text with
      | [] => None
      | _ :: text' => search fl r text'
      end
  end.

(** [(?:Subon|Subcon):\s*(.*?)\s*Site Receiver:] *)
Definition subcon_pattern : regex :=
  Cat (Alt (Lit (py "Subon")) (Lit (py "Subcon")))
  (Cat (Lit (py ":"))
  (Cat (Rep CSpace 0 true)
  (Cat (Grp (Rep CDot 0 false))
  (Cat (Rep CSpace 0 true)
       (Lit (py "Site Receiver:")))))).

(** [Site Receiver:\s*(.*?)(?:/|\d{8,})] *)
Definition receiver_pattern : regex :=
  Cat (Lit (py "Site Receiver:"))
  (Cat (Rep CSpace 0 true)
  (Cat (Grp (Rep CDot 0 false))
       (Alt (Lit (py "/")) (Rep CDigit 8 true)))).

(** [re.IGNORECASE | re.DOTALL] *)
Definition subcon_flags : flags := mkFlags true true.

(** [re.IGNORECASE] *)
Definition receiver_flags : flags := mkFlags true false.

(** [m.group(1)] as a string; [None.strip()] would raise. *)
Definition group (m : Match) : outcome str :=
  match group1 m with
  | Some g => Ok g
  | None => Raise (AttributeError (py "'NoneType' object has no attribute 'strip'"))
  end.

(** [s.replace(old, new)]; [skip] characters of a match are still to be
    passed over. *)
Fixpoint replace_from (old new : str) (skip : nat) (s : str) : str :=
  match s with
  | [] => []
  | c :: s' =>
      match skip with
      | S k => replace_from old new k s'
      | O =>
          if startswith old s
          then new ++ replace_from old new (length old - 1) s'
          else c :: replace_from old new 0 s'
      end
  end.

Definition replace (old new s : str) : str := replace_from old new 0 s.

(** Lines 19-25 of [extract_info]. *)
Definition extract_subcon (text : str) : outcome str :=
  let subcon_match := search subcon_flags subcon_pattern text in
  match subcon_match with
  | Some m =>
      g <- group m ;;
      Ok (replace [LF] [SP] (strip g))
  | None => Ok (py "Unknown")
  end.

(** Lines 27-32 of [extract_info]. *)
Definition extract_receiver (text : str) : outcome str :=
  let receiver_match := search receiver_flags receiver_pattern text in
  match receiver_match with
  | Some m =>
      g <- group m ;;
      Ok (strip g)
  | None => Ok (py "Unknown")
  end.

Definition extract_fields (text : str) : outcome (str * str) :=
  subcon <- extract_subcon text ;;
  receiver <- extract_receiver text ;;
  Ok (subcon, receiver).

(** ** The application: [extract_info] and [main]

    The PDF libraries are parameters: the page objects of pypdf, its
    [extract_text] and [merge_page], and the page that reading back a saved
    ReportLab canvas gives. *)

(** [range(lo, hi)] *)
Definition range (lo hi : nat) : list nat := seq lo (hi - lo).

(** [for i in l: s = body(i, s)] *)
Fixpoint for_each {St : Type} (l : list nat) (body : nat -> St -> outcome St)
  (s : St) : outcome St :=
  match l with
  | [] => Ok s
  | i :: l' => s' <- body i s ;; for_each l' body s'
  end.

(** The style block [main] hands to [st.markdown]. *)
Definition hide_st_style : str := py "
            <style>
            #MainMenu {visibility: hidden;}
            footer {visibility: hidden;}
            header {visibility: hidden;}
            </style>
            ".

Section App.
Variable PageObject : Type.
Variable extract_text : PageObject -> outcome str.
Variable merge_page : PageObject -> PageObject -> PageObject.
Variable canvas_page : list canvas_op -> PageObject.

(** An uploaded file: its name and what [PdfReader(file).pages] gives. *)
Record UploadedFile : Type := mkUpload {
  name : str;
  PdfReader_pages : outcome (list PageObject)
}.

(** What Streamlit is asked to show, in order. *)
Inductive ui_event : Type :=
| set_page_config (page_title layout : str)
| markdown (body : str)
| title (body : str)
| write (body : str)
| spinner (text : str)
| error (body : str)
| success (body : str)
| download_button (label : str) (data : list PageObject)
    (file_name mime : str).

(** Computations that show things and may raise. *)
Definition App (A : Type) : Type :=
  list ui_event -> outcome A * list ui_event.

Definition ret {A : Type} (a : A) : App A := fun ui => (Ok a, ui).

Definition app_bind {A B : Type} (m : App A) (k : A -> App B) : App B :=
  fun ui =>
    match m ui with
    | (Ok a, ui') => k a ui'
    | (Raise e, ui') => (Raise e, ui')
    | (OutOfFuel, ui') => (OutOfFuel, ui')
    end.

Definition show (e : ui_event) : App unit := fun ui => (Ok tt, ui ++ [e]).

Definition lift {A : Type} (o : outcome A) : App A := fun ui => (o, ui).

(** [try: m  except Exception as e: handler(e)] *)
Definition try_except {A : Type} (m : App A) (handler : exn -> App A)
  : App A :=
  fun ui =>
    match m ui with
    | (Raise e, ui') => handler e ui'
    | r => r
    end.

Notation "x <~ m ;; k" := (app_bind m (fun x => k))
  (at level 61, m at next level, right associativity).

(** Lines 15-17: the text of the first page. *)
Definition first_page_text (pdf_file : UploadedFile) : outcome str :=
  reader_pages <- PdfReader_pages pdf_file ;;
  page <- page_at reader_pages 0 ;;
  extract_text page.

(** [extract_info]: a pair of fields, each a string or [None]. *)
Definition extract_info (pdf_file : UploadedFile)
  : App (option str * option str) :=
  try_except
    (text <~ lift (first_page_text pdf_file) ;;
     fields <~ lift (extract_fields text) ;;
     ret (Some (fst fields), Some (snd fields)))
    (fun e =>
       _ <~ show (error (py "Error extracting info: " ++ exn_str e)) ;;
       ret (None, None)).

(** Truthiness of a value that is a string or [None]. *)
Definition truthy_opt (v : option str) : bool :=
  match v with
  | Some s => truthy s
  | None => false
  end.

(** [str(v)] inside an f-string *)
Definition fmt (v : option str) : str :=
  match v with
  | Some s => s
  | None => py "None"
  end.

(** Lines 138-149: the pages given to the writer, in order. *)
Definition merge_overlay (existing_pdf : list PageObject)
  (new_pdf : list PageObject) : outcome (list PageObject) :=
  page <- page_at existing_pdf 0 ;;
  new_page <- page_at new_pdf 0 ;;
  let page := merge_page page new_page in
  let output := [page] in
  for_each (range 1 (length existing_pdf))
    (fun i output => p <- page_at existing_pdf i ;; Ok (output ++ [p]))
    output.

(** [main], given the uploaded file if there is one and the two
    formattings of [datetime.now()].  Of lines 136-154 the model keeps the
    pages handed to the writer: [merge_page], reading the overlay back and
    [output.write] are taken to return, so a failure inside pypdf while
    merging or writing is outside this model. *)
Definition main (uploaded_file : option UploadedFile)
  (now_date now_time : str) : App unit :=
  _ <~ show (set_page_config (py "Auto-Sign PDF") (py "centered")) ;;
  _ <~ show (markdown hide_st_style) ;;
  _ <~ show (title (py "📝 SS")) ;;
  _ <~ show (write (py "Upload a Delivery Note/POD PDF to automatically sign the Subcon, Receiver Name, and Date.")) ;;
  match uploaded_file with
  | None => ret tt
  | Some uploaded_file =>
      _ <~ show (spinner (py "Processing...")) ;;
      fields <~ extract_info uploaded_file ;;
      let '(subcon, receiver) := fields in
      if truthy_opt subcon && truthy_opt receiver then
        _ <~ show (success (py "✅ Found **" ++ fmt subcon
                            ++ py "** | Receiver: **" ++ fmt receiver
                            ++ py "**")) ;;
        let current_date := now_date in
        overlay_packet <~
          lift (create_overlay (fmt subcon) (fmt receiver) current_date) ;;
        existing_pdf <~ lift (PdfReader_pages uploaded_file) ;;
        let new_pdf := [canvas_page overlay_packet] in
        output <~ lift (merge_overlay existing_pdf new_pdf) ;;
        let output_buffer := output in
        let original_name :=
          replace (py ".PDF") [] (replace (py ".pdf") [] (name uploaded_file)) in
        let timestamp := now_time in
        let new_filename :=
          original_name ++ py "_signed_" ++ timestamp ++ py ".pdf" in
        _ <~ show (write (py "---")) ;;
        show (download_button (py "Download Signed PDF") output_buffer
                new_filename (py "application/pdf"))
      else
        show (error (py "Could not extract Subcon or Receiver information. Please check the PDF format."))
  end.
End App.

Arguments error {PageObject} body.
Arguments success {PageObject} body.
Arguments download_button {PageObject} label data file_name mime.

(** A plain model of the PDF libraries, for concrete runs: a page is its
    text and the drawing operations on it, merging paints the other page's
    operations after the page's own. *)
Record SimplePage : Type := mkPage {
  page_text : str;
  page_ops : list canvas_op
}.

Definition simple_extract_text (p : SimplePage) : outcome str :=
  Ok (page_text p).

Definition simple_merge_page (p q : SimplePage) : SimplePage :=
  mkPage (page_text p) (page_ops p ++ page_ops q).

Definition simple_canvas_page (ops : list canvas_op) : SimplePage :=
  mkPage [] ops.

Definition simple_main :=
  main simple_extract_text simple_merge_page simple_canvas_page.

(** An overlay was produced: a download of some document is offered. *)
Definition offers_download {P : Type} (ui : list (ui_event P)) : bool :=
  existsb (fun e => match e with download_button _ _ _ _ => true | _ => false end) ui.

(** ** The specification's notions *)

(** [needle] occurs in [s] up to letter case. *)
Definition contains_ci (needle s : str) : Prop :=
  exists pre mid post, s = pre ++ mid ++ post /\ str_upper mid = str_upper needle.

(** The split marker: some word of the name has "SDN" in it, in any case. *)
Definition has_sdn_word (subcon : str) : Prop :=
  exists w, In w (split subcon) /\ contains_ci (py "SDN") w.

(** The name fits on one line: it is within the 30 characters the code
    allows a line. *)
Definition fits_one_line (subcon : str) : Prop := len subcon <= 30.

(** The layout invariant as the specification words it. *)
Definition layout_invariant_as_specified (subcon : str) (r : LayoutResult) : Prop :=
  (line1 r = [] -> subcon = []) /\
  (line2 r = [] <->
   fits_one_line subcon \/ (length (split subcon) <= 2 /\ ~ has_sdn_word subcon)).

(** The signature name as the claim words it, for every receiver: the
    first token with its first letter capitalised and the rest lowercased,
    and the empty string when the receiver has no token. *)
Definition signature_as_specified : Prop :=
  forall receiver,
    signature_name receiver
    = Ok match split receiver with
         | w :: _ => capitalize w
         | [] => []
         end.

(** Equal up to letter case. *)
Definition eq_ci (a b : str) : Prop := str_lower a = str_lower b.

Definition subcon_label (lab : str) : Prop :=
  eq_ci lab (py "Subon:") \/ eq_ci lab (py "Subcon:").

Definition site_receiver_label (t : str) : Prop :=
  eq_ci t (py "Site Receiver:").

(** [text] reads: [pre], a subcon label with its colon, [run], the label
    "Site Receiver:", [post]. *)
Definition subcon_found (text pre lab run t post : str) : Prop :=
  text = pre ++ lab ++ run ++ t ++ post /\ subcon_label lab /\
  site_receiver_label t.

(** The subcon rule in the words of the specification: the first place
    where the rule applies, the shortest run there, trimmed and with its
    line breaks turned into spaces; "Unknown" when there is no such place. *)
Definition subcon_rule (text value : str) : Prop :=
  (exists pre lab run t post,
      subcon_found text pre lab run t post /\
      (forall pre' lab' run' t' post',
          subcon_found text pre' lab' run' t' post' -> length pre <= length pre') /\
      (forall run' t' post',
          subcon_found text pre lab run' t' post' -> length run <= length run') /\
      value = replace_char LF SP (strip run))
  \/
  ((forall pre lab run t post, ~ subcon_found text pre lab run t post) /\
   value = py "Unknown").

(** The same place with the closing label as the claim words it: the
    literal "Site Receiver:", letter for letter. *)
Definition subcon_found_literally (text pre lab run post : str) : Prop :=
  text = pre ++ lab ++ run ++ py "Site Receiver:" ++ post /\ subcon_label lab.

(** The subcon rule as the claim words it: as [subcon_rule], the run ending
    at the literal label. *)
Definition subcon_rule_as_specified (text value : str) : Prop :=
  (exists pre lab run post,
      subcon_found_literally text pre lab run post /\
      (forall pre' lab' run' post',
          subcon_found_literally text pre' lab' run' post' ->
          length pre <= length pre') /\
      (forall run' post',
          subcon_found_literally text pre lab run' post' ->
          length run <= length run') /\
      value = replace_char LF SP (strip run))
  \/
  ((forall pre lab run post, ~ subcon_found_literally text pre lab run post) /\
   value = py "Unknown").

Definition subcon_as_specified : Prop :=
  forall text value,
    extract_subcon text = Ok value -> subcon_rule_as_specified text value.

(** What ends the receiver: a slash, or eight digits or more. *)
Definition receiver_terminator (term : str) : Prop :=
  term = py "/" \/ (8 <= length term /\ Forall (fun c => isdigit c = true) term).

Definition has_terminator (s : str) : Prop :=
  exists a term b, s = a ++ term ++ b /\ receiver_terminator term.

(** The number of places where [l] occurs in [s] up to letter case. *)
Fixpoint count_ci (l s : str) : nat :=
  (if startswith (str_lower l) (str_lower s) then 1 else 0) +
  match s with
  | [] => 0
  | _ :: s' => count_ci l s'
  end.

(** [text] has one label "Site Receiver:"; the rest of the label's line
    holds no terminator, a later line does. *)
Definition terminator_only_on_later_line (text : str) : Prop :=
  count_ci (py "Site Receiver:") text = 1 /\
  exists pre lab same later,
    text = pre ++ lab ++ same ++ [LF] ++ later /\
    site_receiver_label lab /\ ~ In LF same /\
    ~ has_terminator same /\ has_terminator later.

(** The single-line property of the receiver as the claim words it. *)
Definition receiver_single_line_as_specified : Prop :=
  forall text value,
    extract_receiver text = Ok value ->
    (value <> py "Unknown" -> ~ In LF value) /\
    (terminator_only_on_later_line text -> value = py "Unknown").

(** A pattern finds no match in the text. *)
Definition subcon_missing (text : str) : Prop :=
  search subcon_flags subcon_pattern text = None.

Definition receiver_missing (text : str) : Prop :=
  search receiver_flags receiver_pattern text = None.

(** The continuation after a missing field as the claim words it, on the
    plain model of pages: whenever a pattern finds no match in the text of
    the first page, the signed document is still produced. *)
Definition unknown_continues_as_specified : Prop :=
  forall (f : UploadedFile SimplePage) (page0 : SimplePage)
         (rest : list SimplePage) (now_date now_time : str),
    PdfReader_pages f = Ok (page0 :: rest) ->
    subcon_missing (page_text page0) \/ receiver_missing (page_text page0) ->
    offers_download (snd (simple_main (Some f) now_date now_time [])) = true.

(** ** Auxiliary notions of the proofs *)

(** A text the literal [l] matches, and a text of characters of the
    class [c]. *)
Definition lit_matches (fl : flags) (l m : str) : Prop :=
  Forall2 (fun a b => lit_match fl a b = true) l m.

Definition all_in (fl : flags) (c : cls) (a : str) : Prop :=
  Forall (fun b => cls_match fl c b = true) a.

Definition is_word (w : str) : Prop :=
  w <> [] /\ Forall (fun c => isspace c = false) w.

Definition sdn_in (w : str) : bool := str_in (py "SDN") (str_upper w).

Inductive lines_case (subcon : str) : (str * str) * nat -> Prop :=
| case_sdn (k : nat) (l1 l2 : list str) (n : nat) :
    sdn_index (split subcon) = Z.of_nat k ->
    k < length (split subcon) ->
    l1 ++ l2 = split subcon ->
    length l1 + n = k ->
    (k <> 0 -> l1 <> []) ->
    rebalance_cond (l1, l2) = false ->
    lines_case subcon ((join [SP] l1, join [SP] l2), n)
| case_halves :
    sdn_index (split subcon) = (-1)%Z ->
    2 < length (split subcon) ->
    let mid := length (split subcon) / 2 + 1 in
    lines_case subcon
      ((join [SP] (firstn mid (split subcon)), join [SP] (skipn mid (split subcon))), 0)
| case_whole :
    sdn_index (split subcon) = (-1)%Z ->
    length (split subcon) <= 2 ->
    lines_case subcon ((subcon, []), 0).

(** The continuation [search] ends a match with. *)
Definition found : str -> option str -> option Match :=
  fun _ cap => Some (mkMatch cap).

Definition all_space (a : str) : Prop := Forall (fun c => isspace c = true) a.

(** The pattern from the second [\s*] on, [s2] being where group 1
    started and [s3] where it ended. *)
Definition to_site_receiver (s2 s3 : str) : option Match :=
  rep_greedy subcon_flags CSpace 0 s3
    (fun s4 =>
       match match_lit subcon_flags (py "Site Receiver:") s4 with
       | Some s5 => found s5 (Some (firstn (length s2 - length s3) s2))
       | None => None
       end).

(** The pattern after the label and its colon. *)
Definition after_label (s1 : str) : option Match :=
  rep_greedy subcon_flags CSpace 0 s1
    (fun s2 => rep_lazy subcon_flags CDot 0 s2 (to_site_receiver s2)).

Definition label_then (l s : str) : option Match :=
  match match_lit subcon_flags (l ++ py ":") s with
  | Some s1 => after_label s1
  | None => None
  end.

(** The pattern after group 1, which started at [s2] and ended at [s3]. *)
Definition to_terminator (s2 s3 : str) : option Match :=
  let cap := Some (firstn (length s2 - length s3) s2) in
  match
    match match_lit receiver_flags (py "/") s3 with
    | Some s4 => found s4 cap
    | None => None
    end
  with
  | Some m => Some m
  | None => rep_greedy receiver_flags CDigit 8 s3 (fun s4 => found s4 cap)
  end.

Definition overlay_ops (lay : LayoutResult) (first_name date_str : str)
  : list canvas_op :=
  [setFont (py "Helvetica") (font_size lay); drawString 510 742 (line1 lay)]
  ++ (if truthy (line2 lay) then [drawString 510 732 (line2 lay)] else [])
  ++ [setFont (py "Times-Italic") 14; drawString 520 665 first_name;
      setFont (py "Helvetica") 10; drawString 500 642 date_str].

(** What [main] shows before it looks at the uploaded file's fields. *)
Definition preamble {PageObject : Type} : list (ui_event PageObject) :=
  [set_page_config _ (py "Auto-Sign PDF") (py "centered");
   markdown _ (hide_st_style);
   title _ (py "📝 SS");
   write _ (py "Upload a Delivery Note/POD PDF to automatically sign the Subcon, Receiver Name, and Date.");
   spinner _ (py "Processing...")].

Definition could_not_extract {PageObject : Type} : ui_event PageObject :=
  error (py "Could not extract Subcon or Receiver information. Please check the PDF format.").

Definition signed_name (original timestamp : str) : str :=
  replace (py ".PDF") [] (replace (py ".pdf") [] original)
  ++ py "_signed_" ++ timestamp ++ py ".pdf".

(** * Properties *)

(** ** Strings *)

Lemma isspace_SP : isspace SP = true.
Proof. reflexivity. Qed.

Lemma startswith_iff (p s : str) :
  startswith p s = true <-> exists r, s = p ++ r.
Proof.
  revert s; induction p as [|a p IH]; intros s; simpl.
  - split; [intros _; now exists s | reflexivity].
  - destruct s as [|b s].
    + split; [discriminate | intros [r Hr]; discriminate].
    + rewrite andb_true_iff, Ascii.eqb_eq, IH. split.
      * intros [-> [r ->]]. now exists r.
      * intros [r Hr]. injection Hr as -> ->. split; [reflexivity | now exists r].
Qed.

Lemma str_in_iff (needle hay : str) :
  str_in needle hay = true <-> exists pre post, hay = pre ++ needle ++ post.
Proof.
  induction hay as [|c hay IH].
  - simpl. rewrite orb_false_r, startswith_iff. split.
    + intros [r ->]. now exists [], r.
    + intros [pre [post H]]. destruct pre; [now exists post | discriminate].
  - cbn [str_in]. rewrite orb_true_iff, startswith_iff, IH. split.
    + intros [[r ->] | [pre [post ->]]].
      * now exists [], r.
      * now exists (c :: pre), post.
    + intros [pre [post H]]. destruct pre as [|d pre].
      * left. now exists post.
      * right. injection H as -> ->. now exists pre, post.
Qed.

(** Splitting a mapped string: the pieces are mapped pieces. *)
Lemma map_eq_app3 {A B : Type} (f : A -> B) (s : list A) (x y z : list B) :
  map f s = x ++ y ++ z ->
  exists a b c, s = a ++ b ++ c /\ map f a = x /\ map f b = y /\ map f c = z.
Proof.
  intros H.
  apply map_eq_app in H as (a & r & -> & Ha & Hr).
  apply map_eq_app in Hr as (b & c & -> & Hb & Hc).
  now exists a, b, c.
Qed.

(** The test of the code, ["N" in s.upper()] for an upper-case [N], is
    containment up to case. *)
Lemma str_in_upper_iff (needle s : str) :
  str_upper needle = needle ->
  str_in needle (str_upper s) = true <-> contains_ci needle s.
Proof.
  intros Hn. rewrite str_in_iff. unfold contains_ci, str_upper in *. split.
  - intros (pre & post & H).
    apply map_eq_app3 in H as (a & b & c & -> & _ & Hb & _).
    exists a, b, c. now rewrite Hn.
  - intros (pre & mid & post & -> & Hm).
    exists (map upper_char pre), (map upper_char post).
    now rewrite !map_app, Hm, Hn.
Qed.

Lemma split_from_app_space (cur a b : str) (sp : ascii) :
  isspace sp = true ->
  split_from cur (a ++ sp :: b) = split_from cur a ++ split_from [] b.
Proof.
  intros Hsp. revert cur. induction a as [|c a IH]; intros cur; simpl.
  - rewrite Hsp. now destruct cur.
  - destruct (isspace c).
    + destruct cur; simpl; now rewrite IH.
    + apply IH.
Qed.

Lemma split_from_nospace (cur a : str) :
  Forall (fun c => isspace c = false) a ->
  split_from cur a = match cur ++ a with [] => [] | w => [w] end.
Proof.
  intros H. revert cur. induction H as [|c a Hc _ IH]; intros cur; simpl.
  - rewrite app_nil_r. now destruct cur.
  - rewrite Hc, IH, <- app_assoc. reflexivity.
Qed.

Lemma split_word (w : str) : is_word w -> split w = [w].
Proof.
  intros [Hne Hw]. unfold split. rewrite split_from_nospace by assumption.
  simpl. now destruct w.
Qed.

Lemma split_join (ws : list str) :
  Forall is_word ws -> split (join [SP] ws) = ws.
Proof.
  induction 1 as [|w ws Hw Hws IH]; [reflexivity|].
  destruct ws as [|w' ws].
  - now apply split_word.
  - change (join [SP] (w :: w' :: ws)) with (w ++ SP :: join [SP] (w' :: ws)).
    transitivity (split w ++ split (join [SP] (w' :: ws))).
    + unfold split. now apply split_from_app_space.
    + now rewrite IH, (split_word Hw).
Qed.

Lemma split_from_words (cur s : str) :
  Forall (fun c => isspace c = false) cur ->
  Forall is_word (split_from cur s).
Proof.
  revert cur. induction s as [|c s IH]; intros cur Hcur; simpl.
  - destruct cur; constructor; [|constructor]. split; [discriminate | assumption].
  - destruct (isspace c) eqn:Hc.
    + destruct cur.
      * now apply IH.
      * constructor; [split; [discriminate | assumption] | now apply IH].
    + apply IH. apply Forall_app. split; [assumption | now constructor].
Qed.

Lemma split_words (s : str) : Forall is_word (split s).
Proof. apply split_from_words. constructor. Qed.

Lemma join_nil_iff (ws : list str) :
  Forall is_word ws -> (join [SP] ws = [] <-> ws = []).
Proof.
  intros H. split; [|now intros ->].
  destruct H as [|w ws [Hne _] _]; [reflexivity|].
  intros Hj. exfalso. destruct ws; simpl in Hj.
  - now apply Hne.
  - destruct w; [now apply Hne | discriminate].
Qed.

(** The words of two lines put side by side. *)
Lemma split_two_lines (l1 l2 : list str) :
  Forall is_word l1 -> Forall is_word l2 ->
  split (join [SP] l1 ++ [SP] ++ join [SP] l2) = l1 ++ l2.
Proof.
  intros H1 H2.
  transitivity (split (join [SP] l1) ++ split (join [SP] l2)).
  - unfold split. now apply split_from_app_space.
  - now rewrite !split_join.
Qed.

(** ** The search for the split marker *)

Lemma find_sdn_cases (words : list str) (i : Z) :
  (find_sdn i words = (-1)%Z /\ Forall (fun w => sdn_in w = false) words) \/
  (exists k, find_sdn i words = (i + Z.of_nat k)%Z /\ k < length words /\
             Forall (fun w => sdn_in w = false) (firstn k words) /\
             exists w, nth_error words k = Some w /\ sdn_in w = true).
Proof.
  revert i. induction words as [|w words IH]; intros i; cbn [find_sdn].
  - left. split; [reflexivity | constructor].
  - change (str_in (py "SDN") (str_upper w)) with (sdn_in w).
    destruct (sdn_in w) eqn:Hw.
    + right. exists 0. simpl. split; [lia|]. split; [lia|]. split; [constructor|].
      now exists w.
    + destruct (IH (i + 1)%Z) as [[H1 H2] | (k & H1 & H2 & H3 & H4)].
      * left. split; [assumption | now constructor].
      * right. exists (S k). simpl. split; [lia|]. split; [lia|].
        split; [now constructor | assumption].
Qed.

Lemma sdn_in_iff (w : str) : sdn_in w = true <-> contains_ci (py "SDN") w.
Proof. apply str_in_upper_iff. reflexivity. Qed.

Lemma sdn_index_none_iff (subcon : str) :
  sdn_index (split subcon) = (-1)%Z <-> ~ has_sdn_word subcon.
Proof.
  unfold sdn_index, has_sdn_word.
  destruct (find_sdn_cases (split subcon) 0) as [[H1 H2] | (k & H1 & H2 & _ & w & H4 & H5)].
  - split; [|intros _; assumption].
    intros _ (w & Hin & Hw). rewrite Forall_forall in H2.
    apply sdn_in_iff in Hw. rewrite (H2 w Hin) in Hw. discriminate.
  - split; [lia|]. intros Hno. exfalso. apply Hno. exists w. split.
    + eapply nth_error_In; eassumption.
    + now apply sdn_in_iff.
Qed.

(** ** The rebalancing loop *)

Lemma pop_snoc {A : Type} (l : list A) (x : A) : pop (l ++ [x]) = Ok (x, l).
Proof. unfold pop. rewrite rev_app_distr. simpl. now rewrite rev_involutive. Qed.

(** One iteration moves the last word of line 1 to the front of line 2. *)
Lemma rebalance_body_snoc (l l2 : list str) (x : str) :
  rebalance_body (l ++ [x], l2) = Ok (l, x :: l2).
Proof. unfold rebalance_body. simpl. now rewrite pop_snoc. Qed.

(** The guard holds only of a first line of two words or more. *)
Lemma rebalance_cond_true (l1 l2 : list str) :
  rebalance_cond (l1, l2) = true ->
  exists l x, l1 = l ++ [x] /\ l <> [].
Proof.
  unfold rebalance_cond. simpl. rewrite andb_true_iff, !Nat.ltb_lt. intros [_ Hlen].
  destruct (exists_last (l := l1)) as (l & x & ->).
  - intros ->. simpl in Hlen. lia.
  - exists l, x. split; [reflexivity|]. intros ->. simpl in Hlen. lia.
Qed.

(** With more fuel than line 1 has words the loop ends normally: no word is
    lost, each iteration took one word off line 1, and line 1 is not
    emptied. *)
Lemma rebalance_while (l1 l2 : list str) :
  exists l1' l2' k,
    l1' ++ l2' = l1 ++ l2 /\
    length l1' + k = length l1 /\
    (l1 <> [] -> l1' <> []) /\
    rebalance_cond (l1', l2') = false /\
    forall fuel n0,
      length l1 < fuel ->
      while rebalance_cond rebalance_body fuel n0 (l1, l2) = Ok ((l1', l2'), n0 + k).
Proof.
  remember (length l1) as n eqn:Hn. revert l1 l2 Hn.
  induction n as [|n IH]; intros l1 l2 Hn;
    destruct (rebalance_cond (l1, l2)) eqn:Hc.
  - destruct (rebalance_cond_true _ _ Hc) as (l & x & -> & _).
    rewrite length_app in Hn. simpl in Hn. lia.
  - exists l1, l2, 0. split; [reflexivity|]. split; [lia|]. split; [auto|].
    split; [assumption|].
    intros [|fuel] n0 Hfuel; [lia|]. simpl. rewrite Hc. do 2 f_equal. lia.
  - destruct (rebalance_cond_true _ _ Hc) as (l & x & -> & Hl).
    rewrite length_app in Hn. simpl in Hn.
    destruct (IH l (x :: l2)) as (l1' & l2' & k & Happ & Hlen & Hne & Hc' & Hw);
      [lia|].
    exists l1', l2', (S k). split; [|split; [|split; [|split]]].
    + rewrite Happ, <- app_assoc. reflexivity.
    + lia.
    + intros _. now apply Hne.
    + assumption.
    + intros [|fuel] n0 Hfuel; [lia|]. simpl. rewrite Hc, rebalance_body_snoc. simpl.
      rewrite Hw by lia. do 2 f_equal. lia.
  - exists l1, l2, 0. split; [reflexivity|]. split; [lia|]. split; [auto|].
    split; [assumption|].
    intros [|fuel] n0 Hfuel; [lia|]. simpl. rewrite Hc. do 2 f_equal. lia.
Qed.

(** ** The three ways the name is laid out *)

Lemma split_lines_cases (subcon : str) :
  exists r, lines_case subcon r /\
            forall fuel, length (split subcon) < fuel -> split_lines fuel subcon = Ok r.
Proof.
  unfold split_lines.
  destruct (find_sdn_cases (split subcon) 0) as [[H1 H2] | (k & H1 & H2 & _)];
    fold (sdn_index (split subcon)) in H1.
  - rewrite H1. simpl. destruct (2 <? length (split subcon)) eqn:Hlen.
    + apply Nat.ltb_lt in Hlen. eexists. split; [now apply case_halves | reflexivity].
    + apply Nat.ltb_ge in Hlen. eexists. split; [now apply case_whole | reflexivity].
  - rewrite H1. simpl in *. rewrite Nat2Z.id.
    replace (Z.of_nat k =? -1)%Z with false by (symmetry; apply Z.eqb_neq; lia).
    simpl. set (words := split subcon) in *.
    assert (Hk : length (firstn k words) = k) by (apply firstn_length_le; lia).
    destruct (rebalance_while (firstn k words) (skipn k words))
      as (l1' & l2' & n & Happ & Hlen & Hne & Hc & Hw).
    rewrite firstn_skipn in Happ. rewrite Hk in Hlen, Hw.
    exists ((join [SP] l1', join [SP] l2'), n). split.
    + apply case_sdn with (k := k); auto.
      intros Hk0. apply Hne. intros Hnil. rewrite Hnil in Hk. simpl in Hk. lia.
    + intros fuel Hfuel. unfold rebalance. rewrite Hw by lia. reflexivity.
Qed.

Lemma layout_of_lines (subcon : str) :
  exists l1 l2 n,
    lines_case subcon ((l1, l2), n) /\
    (forall fuel, length (split subcon) < fuel ->
                  split_lines fuel subcon = Ok ((l1, l2), n)) /\
    layout subcon = Ok (mkLayout l1 l2 (choose_font_size subcon l1)).
Proof.
  destruct (split_lines_cases subcon) as ([[l1 l2] n] & Hcase & Hrun).
  exists l1, l2, n. split; [assumption|]. split; [assumption|].
  unfold layout, layout_fuel. rewrite Hrun by lia. reflexivity.
Qed.

Lemma lines_case_words (subcon : str) (l1 l2 : list str) :
  l1 ++ l2 = split subcon -> Forall is_word l1 /\ Forall is_word l2.
Proof.
  intros H. apply Forall_app. rewrite H. apply split_words.
Qed.

Lemma half_lt (n : nat) : 2 < n -> 0 < n / 2 + 1 < n.
Proof.
  intros H. pose proof (Nat.div_mod_eq n 2) as Hd.
  pose proof (Nat.mod_upper_bound n 2). lia.
Qed.

(** The layout never loses, repeats or reorders a word. *)
Lemma layout_keeps_words (subcon : str) :
  exists r, layout subcon = Ok r /\
            split (line1 r ++ [SP] ++ line2 r) = split subcon.
Proof.
  destruct (layout_of_lines subcon) as (l1 & l2 & n & Hcase & _ & Hlay).
  eexists. split; [eassumption|]. simpl line1. simpl line2.
  inversion Hcase as [k m1 m2 n' Hidx Hk Happ Hlen Hne Hc | Hidx Hlen mid | Hidx Hlen]; subst.
  - destruct (lines_case_words subcon m1 m2) as [H1 H2]; [assumption|].
    rewrite split_two_lines by assumption. assumption.
  - destruct (lines_case_words subcon (firstn mid (split subcon)) (skipn mid (split subcon)))
      as [H1 H2]; [apply firstn_skipn|].
    rewrite split_two_lines by assumption. apply firstn_skipn.
  - match goal with |- split (?s ++ _) = _ => transitivity (split s ++ split []) end.
    + unfold split. now apply (split_from_app_space [] _ []).
    + apply app_nil_r.
Qed.

(** ** Claims about the layout *)

(** C9: the line-splitting computation terminates for every name.  With
    more fuel than the name has words it returns, whatever the fuel, and so
    the layout is a total function; the loop runs at most (number of words
    before the marker) - 1 times, and each iteration takes exactly one word
    off line 1. *)
Theorem layout_terminates (subcon : str) :
  exists lines iters r,
    (forall fuel, length (split subcon) < fuel ->
                  split_lines fuel subcon = Ok (lines, iters)) /\
    layout subcon = Ok r /\
    (line1 r, line2 r) = lines /\
    iters <= Z.to_nat (sdn_index (split subcon)) - 1 /\
    ((sdn_index (split subcon) = (-1)%Z /\ iters = 0) \/
     length (split (fst lines)) + iters = Z.to_nat (sdn_index (split subcon))).
Proof.
  destruct (layout_of_lines subcon) as (l1 & l2 & n & Hcase & Hrun & Hlay).
  exists (l1, l2), n. eexists. split; [assumption|]. split; [eassumption|].
  split; [reflexivity|]. simpl fst.
  inversion Hcase as [k m1 m2 n' Hidx Hk Happ Hlen Hne Hc | Hidx Hlen mid | Hidx Hlen]; subst.
  - rewrite Hidx, Nat2Z.id.
    destruct (lines_case_words subcon m1 m2) as [H1 _]; [assumption|].
    rewrite split_join by assumption. split; [|right; reflexivity].
    destruct m1 as [|w m1]; simpl in *; [|lia].
    destruct (Nat.eq_dec n 0) as [->|Hn]; [lia|].
    exfalso. apply Hne; [lia | reflexivity].
  - split; [lia | now left].
  - split; [lia | now left].
Qed.

(** C1, as amended: line 1 is empty exactly when the name is empty or its
    first word carries the split marker; line 2 is empty exactly when the
    name has at most two words and no split marker. *)
Theorem layout_empty_lines (subcon : str) :
  exists r,
    layout subcon = Ok r /\
    (line1 r = [] <-> subcon = [] \/ sdn_index (split subcon) = 0%Z) /\
    (line2 r = [] <-> length (split subcon) <= 2 /\ ~ has_sdn_word subcon).
Proof.
  destruct (layout_of_lines subcon) as (l1 & l2 & n & Hcase & _ & Hlay).
  eexists. split; [eassumption|]. simpl line1. simpl line2.
  rewrite <- sdn_index_none_iff.
  inversion Hcase as [k m1 m2 n' Hidx Hk Happ Hlen Hne Hc | Hidx Hlen mid | Hidx Hlen]; subst.
  - rewrite Hidx.
    destruct (lines_case_words subcon m1 m2) as [H1 H2]; [assumption|].
    rewrite !join_nil_iff by assumption.
    assert (Hlen2 : length m1 + length m2 = length (split subcon)).
    { rewrite <- length_app. now f_equal. }
    split; split.
    + intros ->. right. simpl in *.
      destruct (Nat.eq_dec n 0) as [->|Hn]; [reflexivity|].
      exfalso. apply Hne; [lia | reflexivity].
    + intros [-> | Hk0]; [simpl in *; lia|].
      destruct m1; [reflexivity | simpl in *; lia].
    + intros ->. simpl in *. lia.
    + intros [_ Hk0]. lia.
  - rewrite Hidx.
    pose proof (half_lt Hlen) as Hmid. fold mid in Hmid.
    destruct (lines_case_words subcon (firstn mid (split subcon)) (skipn mid (split subcon)))
      as [H1 H2]; [apply firstn_skipn|].
    rewrite !join_nil_iff by assumption.
    split; split.
    + intros Hnil. apply (f_equal (@length str)) in Hnil.
      rewrite firstn_length_le in Hnil by lia. simpl in Hnil. lia.
    + intros [-> | Hk]; [simpl in *; lia | discriminate].
    + intros Hnil. apply (f_equal (@length str)) in Hnil.
      rewrite length_skipn in Hnil. simpl in Hnil. lia.
    + intros [Hlen2 _]. lia.
  - rewrite Hidx.
    split; split.
    + intros ->. now left.
    + intros [-> | Hk]; [reflexivity | discriminate].
    + intros _. split; [assumption | reflexivity].
    + reflexivity.
Qed.

(** C1, as the specification words it, fails on the name "SDN BHD": line 1
    is empty though the name is not, and line 2 is not empty though the name
    fits on one line. *)
Lemma layout_invariant_fails :
  exists r, layout (py "SDN BHD") = Ok r /\
            (line1 r = [] /\ line2 r = py "SDN BHD") /\
            ~ layout_invariant_as_specified (py "SDN BHD") r.
Proof.
  exists (mkLayout [] (py "SDN BHD") 6). split; [reflexivity|].
  split; [split; reflexivity|].
  intros [H _]. specialize (H eq_refl). discriminate.
Qed.

(** C2: for a name with a word containing "SDN" in any case, the words of
    line 1, a space and line 2 are exactly the words of the name, in
    order. *)
Theorem layout_reconstructs_words (subcon : str) :
  has_sdn_word subcon ->
  exists r, layout subcon = Ok r /\
            split (line1 r ++ [SP] ++ line2 r) = split subcon.
Proof.
  intros Hmarker.
  destruct (layout_of_lines subcon) as (l1 & l2 & n & Hcase & _ & Hlay).
  eexists. split; [eassumption|]. simpl line1. simpl line2.
  inversion Hcase as [k m1 m2 n' Hidx Hk Happ Hlen Hne Hc | Hidx Hlen mid | Hidx Hlen]; subst.
  - (* split at the marker, then rebalanced: the two word lists still make
       up the words of the name *)
    destruct (lines_case_words subcon m1 m2) as [H1 H2]; [assumption|].
    rewrite split_two_lines by assumption. assumption.
  - apply sdn_index_none_iff in Hidx. contradiction.
  - apply sdn_index_none_iff in Hidx. contradiction.
Qed.

Lemma layout_reconstructs_words_witness :
  has_sdn_word (py "ABC SDN BHD") /\
  exists r, layout (py "ABC SDN BHD") = Ok r /\
            split (line1 r ++ [SP] ++ line2 r) = split (py "ABC SDN BHD").
Proof.
  assert (H : has_sdn_word (py "ABC SDN BHD")).
  { exists (py "SDN"). split; [right; left; reflexivity|].
    exists [], (py "SDN"), []. split; reflexivity. }
  split; [exact H | exact (layout_reconstructs_words H)].
Defined.

(** C4: the font size is 4.5 exactly when the name contains
    "UNIVERSAL CELLULAR" in any case or line 1 is longer than 30
    characters, and 6 otherwise. *)
Theorem font_size_rule (subcon : str) :
  exists r,
    layout subcon = Ok r /\
    (font_size r = 4.5%Q <->
     contains_ci (py "UNIVERSAL CELLULAR") subcon \/ 30 < len (line1 r)) /\
    (font_size r = 6%Q <->
     ~ (contains_ci (py "UNIVERSAL CELLULAR") subcon \/ 30 < len (line1 r))).
Proof.
  destruct (layout_of_lines subcon) as (l1 & l2 & n & _ & _ & Hlay).
  eexists. split; [eassumption|]. simpl font_size. simpl line1.
  unfold choose_font_size.
  rewrite <- (@str_in_upper_iff (py "UNIVERSAL CELLULAR") subcon eq_refl).
  rewrite <- Nat.ltb_lt, <- orb_true_iff.
  destruct (str_in (py "UNIVERSAL CELLULAR") (str_upper subcon) || (30 <? len l1)).
  - split; split; intros H; try reflexivity; try discriminate. now elim H.
  - split; split; intros H; try reflexivity; try discriminate.
Qed.

(** ** The signature name *)

Lemma split_from_nonempty (cur s : str) : cur <> [] -> split_from cur s <> [].
Proof.
  revert cur. induction s as [|c s IH]; intros cur Hcur; simpl.
  - destruct cur; [contradiction | discriminate].
  - destruct (isspace c).
    + destruct cur; [contradiction | discriminate].
    + apply IH. destruct cur; discriminate.
Qed.

Lemma split_nil_iff (s : str) :
  split s = [] <-> Forall (fun c => isspace c = true) s.
Proof.
  unfold split. induction s as [|c s IH]; simpl.
  - split; [constructor | reflexivity].
  - destruct (isspace c) eqn:Hc.
    + rewrite IH. split; [now constructor | now inversion 1].
    + split.
      * intros H. now apply split_from_nonempty in H.
      * inversion 1; congruence.
Qed.

(** What lines 86-88 give, by the tokens of the receiver. *)
Lemma signature_name_cases (receiver : str) :
  match split receiver with
  | w :: _ => signature_name receiver = Ok (capitalize w)
  | [] =>
      (receiver = [] /\ signature_name receiver = Ok []) \/
      (receiver <> [] /\
       signature_name receiver = Raise (IndexError (py "list index out of range")))
  end.
Proof.
  unfold signature_name. destruct receiver as [|c r].
  - left. split; reflexivity.
  - cbn [truthy]. destruct (split (c :: r)) as [|w ws]; simpl.
    + right. split; [discriminate | reflexivity].
    + reflexivity.
Qed.

(** C3, as the claim words it, fails on a receiver made of one space: it
    has no token, and line 87 raises IndexError where the claim says the
    signature is the empty string. *)
Lemma signature_name_of_space_raises :
  split [SP] = [] /\
  signature_name [SP] = Raise (IndexError (py "list index out of range")) /\
  (forall subcon date_str,
      create_overlay subcon [SP] date_str
      = Raise (IndexError (py "list index out of range"))) /\
  ~ signature_as_specified.
Proof.
  split; [reflexivity|]. split; [reflexivity|]. split.
  - intros subcon date_str. unfold create_overlay.
    destruct (layout_of_lines subcon) as (l1 & l2 & n & _ & _ & ->).
    reflexivity.
  - intros H. specialize (H [SP]). discriminate H.
Qed.

(** ** The matcher *)

Section MatcherFacts.
Variable fl : flags.
Variable R : Type.

Lemma match_lit_Some (l s s' : str) :
  match_lit fl l s = Some s' <-> exists m, s = m ++ s' /\ lit_matches fl l m.
Proof.
  revert s. induction l as [|a l IH]; intros s; simpl.
  - split.
    + intros [= ->]. exists []. split; [reflexivity | constructor].
    + intros (m & -> & Hm). inversion Hm. reflexivity.
  - destruct s as [|b s].
    + split; [discriminate|]. intros (m & Hs & Hm). inversion Hm; subst. discriminate.
    + destruct (lit_match fl a b) eqn:Hab.
      * rewrite IH. split.
        -- intros (m & -> & Hm). exists (b :: m). split; [reflexivity | now constructor].
        -- intros (m & Hs & Hm). inversion Hm as [|a' b' l' m' Hb Hm']; subst.
           injection Hs as -> ->. now exists m'.
      * split; [discriminate|]. intros (m & Hs & Hm).
        inversion Hm as [|a' b' l' m' Hb Hm']; subst.
        injection Hs as -> ->. congruence.
Qed.

Lemma match_lit_None (l s : str) :
  match_lit fl l s = None -> forall m s', s = m ++ s' -> ~ lit_matches fl l m.
Proof.
  intros Hn m s' Hs Hm.
  assert (H : match_lit fl l s = Some s') by (apply match_lit_Some; now exists m).
  congruence.
Qed.

Lemma rep_greedy_Some (c : cls) (k : str -> option R) (r : R) :
  forall (s : str) (min : nat),
    rep_greedy fl c min s k = Some r ->
    exists a b, s = a ++ b /\ all_in fl c a /\ min <= length a /\ k b = Some r.
Proof.
  induction s as [|x s IH]; intros min; simpl.
  - destruct (Nat.eqb_spec min 0) as [->|]; [|discriminate].
    intros H. exists [], []. repeat split; [constructor | lia | assumption].
  - destruct (cls_match fl c x) eqn:Hx.
    + destruct (rep_greedy fl c (pred min) s k) eqn:Hin.
      * intros [= ->]. destruct (IH _ Hin) as (a & b & -> & Ha & Hmin & Hk).
        exists (x :: a), b. repeat split; [now constructor | simpl; lia | assumption].
      * destruct (Nat.eqb_spec min 0) as [->|]; [|discriminate].
        intros H. exists [], (x :: s). repeat split; [constructor | lia | assumption].
    + destruct (Nat.eqb_spec min 0) as [->|]; [|discriminate].
      intros H. exists [], (x :: s). repeat split; [constructor | lia | assumption].
Qed.

Lemma rep_greedy_None (c : cls) (k : str -> option R) :
  forall (s : str) (min : nat),
    rep_greedy fl c min s k = None ->
    forall a b, s = a ++ b -> all_in fl c a -> min <= length a -> k b = None.
Proof.
  induction s as [|x s IH]; intros min Hn a b Hs Ha Hmin; simpl in Hn.
  - destruct a; [|discriminate]. simpl in *. subst b.
    replace min with 0 in Hn by lia. exact Hn.
  - destruct a as [|y a]; simpl in Hs.
    + subst b. simpl in Hmin. replace min with 0 in Hn by lia. simpl in Hn.
      destruct (cls_match fl c x); [|exact Hn].
      destruct (rep_greedy fl c 0 s k); [discriminate | exact Hn].
    + injection Hs as <- ->. inversion Ha as [|? ? Hy Ha']; subst.
      rewrite Hy in Hn. simpl in Hmin.
      destruct (rep_greedy fl c (pred min) (a ++ b) k) eqn:Hin; [discriminate|].
      eapply IH; [exact Hin | reflexivity | assumption | lia].
Qed.

Lemma rep_lazy_Some (c : cls) (k : str -> option R) (r : R) :
  forall s : str,
    rep_lazy fl c 0 s k = Some r ->
    exists a b, s = a ++ b /\ all_in fl c a /\ k b = Some r /\
                forall a' b', s = a' ++ b' -> length a' < length a -> k b' = None.
Proof.
  induction s as [|x s IH]; simpl.
  - intros H. exists [], []. repeat split; [constructor | assumption|].
    intros a' b' _ Hlt. simpl in Hlt. lia.
  - destruct (k (x :: s)) eqn:Hk.
    + intros [= ->]. exists [], (x :: s). repeat split; [constructor | assumption|].
      intros a' b' _ Hlt. simpl in Hlt. lia.
    + destruct (cls_match fl c x) eqn:Hx; [|discriminate].
      intros H. destruct (IH H) as (a & b & -> & Ha & Hkb & Hmin).
      exists (x :: a), b. repeat split; [now constructor | assumption|].
      intros a' b' Hs Hlt. destruct a' as [|y a']; simpl in Hs.
      * now subst b'.
      * injection Hs as _ Hs. simpl in Hlt. eapply Hmin; [exact Hs | lia].
Qed.

Lemma rep_lazy_None (c : cls) (k : str -> option R) :
  forall s : str,
    rep_lazy fl c 0 s k = None ->
    forall a b, s = a ++ b -> all_in fl c a -> k b = None.
Proof.
  induction s as [|x s IH]; intros Hn a b Hs Ha; simpl in Hn.
  - destruct a; [|discriminate]. simpl in Hs. now subst b.
  - destruct (k (x :: s)) eqn:Hk; [discriminate|].
    destruct a as [|y a]; simpl in Hs.
    + now subst b.
    + injection Hs as <- ->. inversion Ha as [|? ? Hy Ha']; subst.
      rewrite Hy in Hn. eapply IH; [exact Hn | reflexivity | assumption].
Qed.
End MatcherFacts.

Lemma search_Some (fl : flags) (r : regex) (m : Match) :
  forall text : str,
    search fl r text = Some m ->
    exists pre s,
      text = pre ++ s /\ exec fl r s None found = Some m /\
      forall pre' s', text = pre' ++ s' -> length pre' < length pre ->
                      exec fl r s' None found = None.
Proof.
  induction text as [|c text IH]; simpl; fold found.
  - destruct (exec fl r [] None found) eqn:He; [|discriminate].
    intros [= ->]. exists [], []. repeat split; [assumption|].
    intros pre' s' _ Hlt. simpl in Hlt. lia.
  - destruct (exec fl r (c :: text) None found) eqn:He.
    + intros [= ->]. exists [], (c :: text). repeat split; [assumption|].
      intros pre' s' _ Hlt. simpl in Hlt. lia.
    + intros H. destruct (IH H) as (pre & s & -> & Hs & Hmin).
      exists (c :: pre), s. repeat split; [assumption|].
      intros pre' s' Heq Hlt. destruct pre' as [|d pre']; simpl in Heq.
      * now subst s'.
      * injection Heq as _ Heq. simpl in Hlt. eapply Hmin; [exact Heq | lia].
Qed.

Lemma search_None (fl : flags) (r : regex) :
  forall text : str,
    search fl r text = None ->
    forall pre s, text = pre ++ s -> exec fl r s None found = None.
Proof.
  induction text as [|c text IH]; simpl; fold found; intros Hn pre s Hs.
  - destruct pre; [|discriminate]. simpl in Hs. subst s.
    destruct (exec fl r [] None found); [discriminate | reflexivity].
  - destruct (exec fl r (c :: text) None found) eqn:He; [discriminate|].
    destruct pre as [|d pre]; simpl in Hs.
    + now subst s.
    + injection Hs as _ Hs. eapply IH; eassumption.
Qed.

(** ** Literals up to case, whitespace, trimming *)

Lemma lit_matches_ci (fl : flags) (l m : str) :
  IGNORECASE fl = true -> (lit_matches fl l m <-> eq_ci m l).
Proof.
  intros Hfl. unfold lit_matches, eq_ci, lit_match. rewrite Hfl. split.
  - induction 1 as [|a b l m Hab _ IH]; [reflexivity|].
    simpl. apply Ascii.eqb_eq in Hab. now rewrite Hab, IH.
  - revert m. induction l as [|a l IH]; intros [|b m] H; try discriminate; constructor.
    + injection H as Hb _. apply Ascii.eqb_eq. now symmetry.
    + apply IH. now injection H.
Qed.

Lemma match_lit_app (fl : flags) (l1 l2 s : str) :
  match_lit fl (l1 ++ l2) s =
  match match_lit fl l1 s with
  | Some s' => match_lit fl l2 s'
  | None => None
  end.
Proof.
  revert s. induction l1 as [|a l1 IH]; intros s; simpl.
  - reflexivity.
  - destruct s as [|b s].
    + now destruct l2.
    + destruct (lit_match fl a b); [apply IH | reflexivity].
Qed.

(** A character that is an "s" up to case is not whitespace. *)
Lemma ci_s_not_space (c : ascii) :
  lower_char c = lower_char "S" -> isspace c = false.
Proof.
  destruct c as [[] [] [] [] [] [] [] []]; vm_compute; intros H;
    try reflexivity; discriminate H.
Qed.

(** No occurrence of the label "Site Receiver:" starts inside whitespace. *)
Lemma label_not_in_space (l rest t post : str) :
  l <> [] -> all_space l -> l ++ rest = t ++ post -> site_receiver_label t -> False.
Proof.
  intros Hl Hsp Heq Ht. unfold site_receiver_label, eq_ci in Ht.
  destruct t as [|c t]; [discriminate|]. destruct l as [|d l]; [contradiction|].
  injection Heq as -> _. injection Ht as Hc _.
  apply ci_s_not_space in Hc. inversion Hsp; congruence.
Qed.

Lemma lstrip_space_app (a s : str) : all_space a -> lstrip (a ++ s) = lstrip s.
Proof.
  induction 1 as [|c a Hc _ IH]; simpl; [reflexivity|]. now rewrite Hc.
Qed.

Lemma lstrip_all_space (a : str) : all_space a -> lstrip a = [].
Proof.
  intros H. rewrite <- (app_nil_r a). now rewrite lstrip_space_app.
Qed.

Lemma lstrip_app_cases (g b : str) :
  (all_space g /\ lstrip (g ++ b) = lstrip b) \/
  (lstrip g <> [] /\ lstrip (g ++ b) = lstrip g ++ b).
Proof.
  induction g as [|c g IH]; simpl.
  - left. split; [constructor | reflexivity].
  - destruct (isspace c) eqn:Hc.
    + destruct IH as [[H1 H2] | [H1 H2]]; [left | right]; split; auto.
      now constructor.
    + right. split; [discriminate | reflexivity].
Qed.

Lemma rstrip_app_space (s b : str) : all_space b -> rstrip (s ++ b) = rstrip s.
Proof.
  intros Hb. unfold rstrip. rewrite rev_app_distr, lstrip_space_app; [reflexivity|].
  now apply Forall_rev.
Qed.

(** Whitespace around a run does not change what trimming gives. *)
Lemma strip_pad (a g b : str) :
  all_space a -> all_space b -> strip (a ++ g ++ b) = strip g.
Proof.
  intros Ha Hb. unfold strip. rewrite lstrip_space_app by assumption.
  destruct (lstrip_app_cases g b) as [[Hg ->] | [_ ->]].
  - now rewrite (lstrip_all_space Hb), (lstrip_all_space Hg).
  - now apply rstrip_app_space.
Qed.

Lemma replace_one_char (old new : ascii) (s : str) :
  replace [old] [new] s = replace_char old new s.
Proof.
  unfold replace. induction s as [|c s IH]; simpl; [reflexivity|].
  rewrite andb_true_r, (Ascii.eqb_sym old c).
  destruct (Ascii.eqb c old); simpl; now rewrite IH.
Qed.

Lemma firstn_app_length {A : Type} (a b : list A) :
  firstn (length (a ++ b) - length b) (a ++ b) = a.
Proof.
  rewrite length_app. replace (length a + length b - length b) with (length a + 0) by lia.
  rewrite firstn_app_2. simpl. apply app_nil_r.
Qed.

(** ** The subcon pattern *)

Lemma exec_subcon_pattern (s : str) :
  exec subcon_flags subcon_pattern s None found =
  match label_then (py "Subon") s with
  | Some m => Some m
  | None => label_then (py "Subcon") s
  end.
Proof.
  unfold label_then. rewrite !match_lit_app.
  unfold subcon_pattern. cbn [exec].
  destruct (match_lit subcon_flags (py "Subon") s) as [s'|];
    destruct (match_lit subcon_flags (py "Subcon") s) as [s''|]; reflexivity.
Qed.

Lemma all_dot (a : str) : all_in subcon_flags CDot a.
Proof. induction a; constructor; auto. Qed.

Lemma site_receiver_matches (t post : str) :
  site_receiver_label t ->
  match_lit subcon_flags (py "Site Receiver:") (t ++ post) = Some post.
Proof.
  intros Ht. apply match_lit_Some. exists t. split; [reflexivity|].
  now apply lit_matches_ci.
Qed.

Lemma to_site_receiver_at_label (s2 t post : str) :
  site_receiver_label t -> to_site_receiver s2 (t ++ post) <> None.
Proof.
  intros Ht Hn. unfold to_site_receiver in Hn.
  eapply rep_greedy_None with (a := []) (b := t ++ post) in Hn;
    [| reflexivity | constructor | simpl; lia].
  rewrite site_receiver_matches in Hn by assumption. discriminate.
Qed.

(** After the label the pattern finds the run up to the first
    "Site Receiver:", without the whitespace around it. *)
Lemma after_label_Some (s1 : str) (m : Match) :
  after_label s1 = Some m ->
  exists ws1 g ws2 t post,
    s1 = ws1 ++ g ++ ws2 ++ t ++ post /\
    all_space ws1 /\ all_space ws2 /\ site_receiver_label t /\
    m = mkMatch (Some g) /\
    forall run' t' post',
      s1 = run' ++ t' ++ post' -> site_receiver_label t' ->
      length (ws1 ++ g ++ ws2) <= length run'.
Proof.
  unfold after_label. intros H.
  apply rep_greedy_Some in H as (ws1 & s2 & -> & Hws1 & _ & H).
  apply rep_lazy_Some in H as (g & s3 & -> & _ & H & Hmin).
  unfold to_site_receiver in H.
  apply rep_greedy_Some in H as (ws2 & s4 & -> & Hws2 & _ & H).
  destruct (match_lit subcon_flags (py "Site Receiver:") s4) as [s5|] eqn:Hlit;
    [|discriminate].
  apply match_lit_Some in Hlit as (t & -> & Ht).
  apply lit_matches_ci in Ht; [|reflexivity].
  injection H as <-. rewrite firstn_app_length.
  exists ws1, g, ws2, t, s5. repeat split; try assumption.
  intros run' t' post' Heq Ht'.
  destruct (Nat.le_gt_cases (length (ws1 ++ g ++ ws2)) (length run')) as [|Hlt];
    [assumption | exfalso].
  rewrite !length_app in Hlt.
  apply app_eq_app in Heq as (l & [[-> Heq] | [-> Heq]]).
  - (* the label would start inside the first whitespace *)
    destruct l as [|c l].
    + rewrite app_nil_r in *. simpl in Heq.
      destruct g as [|c g].
      * simpl in *. destruct ws2 as [|c ws2]; [simpl in Hlt; lia|].
        eapply (label_not_in_space (l := c :: ws2)); [discriminate | exact Hws2 | | exact Ht'].
        symmetry. exact Heq.
      * eapply to_site_receiver_at_label; [exact Ht'|].
        apply (Hmin [] (t' ++ post')); [symmetry; exact Heq | simpl; lia].
    + apply Forall_app in Hws1 as [_ Hl].
      eapply (label_not_in_space (l := c :: l)); [discriminate | exact Hl | | exact Ht'].
      symmetry. exact Heq.
  - symmetry in Heq. apply app_eq_app in Heq as (l2 & [[-> Heq] | [-> Heq]]).
    + apply app_eq_app in Heq as (l3 & [[-> Heq] | [-> Heq]]).
      * (* the label would start inside the second whitespace *)
        destruct l3 as [|c l3]; [rewrite !length_app in Hlt; simpl in Hlt; lia|].
        apply Forall_app in Hws2 as [_ Hl3].
        eapply (label_not_in_space (l := c :: l3)); [discriminate | exact Hl3 | | exact Ht'].
        symmetry. exact Heq.
      * rewrite !length_app in Hlt. lia.
    + (* the label would start inside the run: the lazy group stops there *)
      destruct l2 as [|c l2].
      * destruct ws2 as [|c ws2]; [rewrite !length_app in Hlt; simpl in Hlt; lia|].
        eapply (label_not_in_space (l := c :: ws2)); [discriminate | exact Hws2 | | exact Ht'].
        symmetry. exact Heq.
      * eapply to_site_receiver_at_label; [exact Ht'|].
        apply (Hmin l (t' ++ post')).
        -- rewrite <- app_assoc. f_equal. symmetry. exact Heq.
        -- rewrite length_app. simpl. lia.
Qed.

Lemma after_label_None (s1 : str) :
  after_label s1 = None ->
  forall run t post, s1 = run ++ t ++ post -> ~ site_receiver_label t.
Proof.
  unfold after_label. intros H run t post Hs Ht.
  eapply rep_greedy_None with (a := []) (b := s1) in H;
    [| reflexivity | constructor | simpl; lia].
  eapply rep_lazy_None with (a := run) (b := t ++ post) in H;
    [| exact Hs | apply all_dot].
  now apply to_site_receiver_at_label in H.
Qed.

Lemma label_then_Some (l s : str) (m : Match) :
  label_then l s = Some m ->
  exists lab s1, s = lab ++ s1 /\ eq_ci lab (l ++ py ":") /\ after_label s1 = Some m.
Proof.
  unfold label_then.
  destruct (match_lit subcon_flags (l ++ py ":") s) as [s1|] eqn:Hlit; [|discriminate].
  intros H. apply match_lit_Some in Hlit as (lab & -> & Hlab).
  apply lit_matches_ci in Hlab; [|reflexivity]. now exists lab, s1.
Qed.

Lemma label_then_None (l s : str) :
  label_then l s = None ->
  forall lab s1, s = lab ++ s1 -> eq_ci lab (l ++ py ":") -> after_label s1 = None.
Proof.
  unfold label_then. intros H lab s1 -> Hlab.
  assert (Hlit : match_lit subcon_flags (l ++ py ":") (lab ++ s1) = Some s1).
  { apply match_lit_Some. exists lab. split; [reflexivity|]. now apply lit_matches_ci. }
  now rewrite Hlit in H.
Qed.

Lemma exec_subcon_Some (s : str) (m : Match) :
  exec subcon_flags subcon_pattern s None found = Some m ->
  exists lab s1, s = lab ++ s1 /\ subcon_label lab /\ after_label s1 = Some m.
Proof.
  rewrite exec_subcon_pattern.
  destruct (label_then (py "Subon") s) as [m'|] eqn:H1.
  - intros [= ->]. apply label_then_Some in H1 as (lab & s1 & -> & Hlab & H).
    exists lab, s1. repeat split; [now left | assumption].
  - intros H2. apply label_then_Some in H2 as (lab & s1 & -> & Hlab & H).
    exists lab, s1. repeat split; [now right | assumption].
Qed.

Lemma exec_subcon_None (s : str) :
  exec subcon_flags subcon_pattern s None found = None ->
  forall lab s1, s = lab ++ s1 -> subcon_label lab -> after_label s1 = None.
Proof.
  rewrite exec_subcon_pattern.
  destruct (label_then (py "Subon") s) as [m'|] eqn:H1; [discriminate|].
  intros H2 lab s1 Hs [Hlab | Hlab].
  - eapply label_then_None; [exact H1 | exact Hs | exact Hlab].
  - eapply label_then_None; [exact H2 | exact Hs | exact Hlab].
Qed.

(** Where the subcon rule applies, the pattern matches. *)
Lemma subcon_found_exec (text pre lab run t post : str) :
  subcon_found text pre lab run t post ->
  exec subcon_flags subcon_pattern (lab ++ run ++ t ++ post) None found <> None.
Proof.
  intros (_ & Hlab & Ht) Hn.
  eapply exec_subcon_None in Hn; [| reflexivity | exact Hlab].
  eapply after_label_None in Hn; [| reflexivity]. now apply Hn.
Qed.

(** ** Claims about the extraction *)

(** C5, as amended: the subcon value is found by locating the first label
    "Subon" or "Subcon", in any case, followed by a colon, taking the
    shortest run of characters, line breaks included, up to a label
    "Site Receiver:" in any case as well, trimming it and replacing its line
    breaks by spaces; it is "Unknown" when the pattern finds no match. *)
Theorem extract_subcon_rule (text : str) :
  exists value, extract_subcon text = Ok value /\ subcon_rule text value.
Proof.
  unfold extract_subcon.
  destruct (search subcon_flags subcon_pattern text) as [m|] eqn:Hs.
  - apply search_Some in Hs as (pre & s & -> & Hexec & Hleft).
    apply exec_subcon_Some in Hexec as (lab & s1 & -> & Hlab & Hafter).
    apply after_label_Some in Hafter
      as (ws1 & g & ws2 & t & post & -> & Hws1 & Hws2 & Ht & -> & Hmin).
    exists (replace [LF] [SP] (strip g)). split; [reflexivity|].
    left. exists pre, lab, (ws1 ++ g ++ ws2), t, post.
    split; [|split; [|split]].
    + split; [|split; assumption]. now rewrite <- !app_assoc.
    + intros pre' lab' run' t' post' Hfound.
      destruct (Nat.le_gt_cases (length pre) (length pre')) as [|Hlt];
        [assumption | exfalso].
      apply (subcon_found_exec Hfound).
      apply (Hleft pre'); [apply Hfound | exact Hlt].
    + intros run' t' post' (Heq & _ & Ht').
      apply app_inv_head in Heq. apply app_inv_head in Heq.
      apply (Hmin run' t' post'); assumption.
    + now rewrite replace_one_char, strip_pad.
  - exists (py "Unknown"). split; [reflexivity|].
    right. split; [|reflexivity].
    intros pre lab run t post Hfound.
    apply (subcon_found_exec Hfound).
    eapply search_None; [exact Hs | apply Hfound].
Qed.

Lemma app_eq_cut {A : Type} (a b s : list A) :
  a ++ b = s -> a = firstn (length a) s /\ b = skipn (length a) s.
Proof.
  intros <-. split.
  - now rewrite firstn_app, Nat.sub_diag, firstn_all, app_nil_r.
  - now rewrite skipn_app, Nat.sub_diag, skipn_all.
Qed.

(** C5, as the claim words it, fails on the text
    "Subcon: ABC site receiver: X Site Receiver: Y/".  The whole pattern
    runs under IGNORECASE, so the run ends before "site receiver:" and the
    code gives "ABC"; the run up to the literal label "Site Receiver:" gives
    "ABC site receiver: X". *)
Lemma subcon_ends_at_lowercase_label :
  let text := py "Subcon: ABC site receiver: X Site Receiver: Y/" in
  extract_subcon text = Ok (py "ABC") /\
  subcon_found_literally text [] (py "Subcon:") (py " ABC site receiver: X ")
    (py " Y/") /\
  replace_char LF SP (strip (py " ABC site receiver: X "))
  = py "ABC site receiver: X" /\
  ~ subcon_rule_as_specified text (py "ABC") /\
  ~ subcon_as_specified.
Proof.
  assert (Hfound :
    subcon_found_literally (py "Subcon: ABC site receiver: X Site Receiver: Y/")
      [] (py "Subcon:") (py " ABC site receiver: X ") (py " Y/")).
  { split; [reflexivity | right; reflexivity]. }
  assert (Hnot :
    ~ subcon_rule_as_specified
        (py "Subcon: ABC site receiver: X Site Receiver: Y/") (py "ABC")).
  { intros [(pre & lab & run & post & (Heq & Hlab) & Hleft & Hshort & Hval)
           | (_ & Hval)]; [|discriminate Hval].
    specialize (Hleft _ _ _ _ Hfound).
    destruct pre as [|c pre]; [|simpl in Hleft; lia]. clear Hleft.
    simpl app in Heq. symmetry in Heq.
    apply app_eq_cut in Heq as [Hlabeq Hrest].
    assert (Hlen : length lab = 6 \/ length lab = 7).
    { destruct Hlab as [Hlab | Hlab]; unfold eq_ci, str_lower in Hlab;
        apply (f_equal (@length ascii)) in Hlab; rewrite !length_map in Hlab;
        [left | right]; exact Hlab. }
    destruct Hlen as [Hlen | Hlen]; rewrite Hlen in Hlabeq, Hrest.
    - vm_compute in Hlabeq. subst lab.
      destruct Hlab as [Hlab | Hlab]; discriminate Hlab.
    - vm_compute in Hlabeq. subst lab.
      specialize (Hshort (py " ABC site receiver: X ") (py " Y/")
                    (conj eq_refl (or_intror eq_refl))).
      replace (skipn 7 (py "Subcon: ABC site receiver: X Site Receiver: Y/"))
        with (py " ABC site receiver: X Site Receiver: Y/") in Hrest
        by reflexivity.
      apply app_eq_cut in Hrest as [Hrun Hterm].
      apply (@app_eq_cut _ (py "Site Receiver:") post) in Hterm as [Hterm _].
      simpl length in Hshort, Hterm.
      remember (length run) as n eqn:Hn. clear Hn Hlab.
      do 23 (destruct n as [|n];
             [first [ vm_compute in Hterm; discriminate Hterm
                    | subst run; vm_compute in Hval; discriminate Hval ]|]).
      lia. }
  split; [reflexivity|]. split; [exact Hfound|]. split; [reflexivity|].
  split; [exact Hnot|].
  intros H. apply Hnot. now apply H.
Qed.

(** ** The receiver pattern *)

Lemma exec_receiver_pattern (s : str) :
  exec receiver_flags receiver_pattern s None found =
  match match_lit receiver_flags (py "Site Receiver:") s with
  | Some s1 =>
      rep_greedy receiver_flags CSpace 0 s1
        (fun s2 => rep_lazy receiver_flags CDot 0 s2 (to_terminator s2))
  | None => None
  end.
Proof. reflexivity. Qed.

Lemma to_terminator_Some (s2 s3 : str) (m : Match) :
  to_terminator s2 s3 = Some m ->
  m = mkMatch (Some (firstn (length s2 - length s3) s2)) /\
  exists term post, s3 = term ++ post /\ receiver_terminator term.
Proof.
  unfold to_terminator, found.
  destruct (match_lit receiver_flags (py "/") s3) as [s4|] eqn:Hlit.
  - intros [= <-]. split; [reflexivity|].
    apply match_lit_Some in Hlit as (term & -> & Hterm).
    exists term, s4. split; [reflexivity|]. left.
    inversion Hterm as [|a b l m' Hab Hm]; subst. inversion Hm; subst.
    f_equal. revert Hab. unfold lit_match. simpl.
    destruct b as [[] [] [] [] [] [] [] []]; vm_compute; intros H;
      try discriminate H; reflexivity.
  - intros H. apply rep_greedy_Some in H as (term & post & -> & Hd & Hlen & H).
    injection H as <-. split; [reflexivity|].
    exists term, post. split; [reflexivity|]. right. split; assumption.
Qed.

Lemma all_dot_no_LF (g : str) : all_in receiver_flags CDot g -> ~ In LF g.
Proof.
  induction 1 as [|c g Hc _ IH]; [easy|].
  intros [-> | Hin]; [discriminate Hc | contradiction].
Qed.

(** Where the receiver pattern matches, the text reads: the label,
    whitespace, the captured run, which has no line break, and a
    terminator. *)
Lemma exec_receiver_Some (s : str) (m : Match) :
  exec receiver_flags receiver_pattern s None found = Some m ->
  exists lab ws g term post,
    s = lab ++ ws ++ g ++ term ++ post /\
    site_receiver_label lab /\ all_space ws /\ ~ In LF g /\
    receiver_terminator term /\ m = mkMatch (Some g).
Proof.
  rewrite exec_receiver_pattern.
  destruct (match_lit receiver_flags (py "Site Receiver:") s) as [s1|] eqn:Hlit;
    [|discriminate].
  apply match_lit_Some in Hlit as (lab & -> & Hlab).
  apply lit_matches_ci in Hlab; [|reflexivity].
  intros H. apply rep_greedy_Some in H as (ws & s2 & -> & Hws & _ & H).
  apply rep_lazy_Some in H as (g & s3 & -> & Hg & H & _).
  apply to_terminator_Some in H as (-> & term & post & -> & Hterm).
  rewrite firstn_app_length.
  exists lab, ws, g, term, post. repeat split; try assumption.
  now apply all_dot_no_LF.
Qed.

Lemma In_lstrip (c : ascii) (s : str) : In c (lstrip s) -> In c s.
Proof.
  induction s as [|d s IH]; simpl; [easy|].
  destruct (isspace d); [right; now apply IH | easy].
Qed.

Lemma In_strip (c : ascii) (s : str) : In c (strip s) -> In c s.
Proof.
  unfold strip, rstrip. intros H.
  apply In_lstrip. apply In_rev. apply In_lstrip. now apply In_rev in H.
Qed.

(** C10, as amended: the receiver value never contains a line break.
    Either the pattern finds no match and the value is "Unknown", or the
    text reads: the label, whitespace, a run without line break, a
    terminator, and the value is the run, trimmed.  The run and the start of
    its terminator lie on one line; the whitespace skipped after the label
    may contain line breaks. *)
Theorem receiver_single_line (text : str) :
  exists value,
    extract_receiver text = Ok value /\
    ~ In LF value /\
    ((search receiver_flags receiver_pattern text = None /\ value = py "Unknown") \/
     (exists pre lab ws g term post,
         text = pre ++ lab ++ ws ++ g ++ term ++ post /\
         site_receiver_label lab /\ all_space ws /\ ~ In LF g /\
         receiver_terminator term /\ value = strip g)).
Proof.
  unfold extract_receiver.
  destruct (search receiver_flags receiver_pattern text) as [m|] eqn:Hs.
  - apply search_Some in Hs as (pre & s & -> & Hexec & _).
    apply exec_receiver_Some in Hexec
      as (lab & ws & g & term & post & -> & Hlab & Hws & Hg & Hterm & ->).
    exists (strip g). split; [reflexivity|]. split.
    + intros Hin. apply Hg. now apply In_strip.
    + right. exists pre, lab, ws, g, term, post. repeat split; assumption.
  - exists (py "Unknown"). split; [reflexivity|]. split.
    + vm_compute. intuition discriminate.
    + left. split; reflexivity.
Qed.

(** C10, as the claim words it, fails on the text "Site Receiver:", line
    break, "John/": the terminator stands only on the line after the
    label's, and the receiver is "John". *)
Lemma receiver_crosses_line_break :
  let text := py "Site Receiver:" ++ [LF] ++ py "John/" in
  terminator_only_on_later_line text /\
  extract_receiver text = Ok (py "John") /\
  ~ receiver_single_line_as_specified.
Proof.
  assert (Hlater : terminator_only_on_later_line
                     (py "Site Receiver:" ++ [LF] ++ py "John/")).
  { split; [reflexivity|].
    exists [], (py "Site Receiver:"), [], (py "John/").
    split; [reflexivity|]. split; [reflexivity|]. split; [easy|]. split.
    - intros (a & term & b & Heq & Hterm).
      destruct a; [|discriminate]. destruct term; [|discriminate].
      destruct Hterm as [H | [H _]]; [discriminate | simpl in H; lia].
    - exists (py "John"), (py "/"), []. split; [reflexivity | now left]. }
  split; [exact Hlater|]. split; [reflexivity|].
  intros H.
  destruct (H (py "Site Receiver:" ++ [LF] ++ py "John/") (py "John") eq_refl)
    as [_ H2].
  specialize (H2 Hlater). discriminate H2.
Qed.

(** ** What the two searches give *)

Lemma extract_subcon_cases (text : str) :
  (subcon_missing text /\ extract_subcon text = Ok (py "Unknown")) \/
  (~ subcon_missing text /\
   exists g, extract_subcon text = Ok (replace [LF] [SP] (strip g))).
Proof.
  unfold subcon_missing, extract_subcon.
  destruct (search subcon_flags subcon_pattern text) as [m|] eqn:Hs.
  - right. split; [discriminate|].
    apply search_Some in Hs as (pre & s & -> & Hexec & _).
    apply exec_subcon_Some in Hexec as (lab & s1 & -> & _ & Hafter).
    apply after_label_Some in Hafter as (ws1 & g & ws2 & t & post & _ & _ & _ & _ & -> & _).
    now exists g.
  - left. split; reflexivity.
Qed.

Lemma extract_receiver_cases (text : str) :
  (receiver_missing text /\ extract_receiver text = Ok (py "Unknown")) \/
  (~ receiver_missing text /\ exists g, extract_receiver text = Ok (strip g)).
Proof.
  unfold receiver_missing, extract_receiver.
  destruct (search receiver_flags receiver_pattern text) as [m|] eqn:Hs.
  - right. split; [discriminate|].
    apply search_Some in Hs as (pre & s & -> & Hexec & _).
    apply exec_receiver_Some in Hexec as (lab & ws & g & term & post & _ & _ & _ & _ & _ & ->).
    now exists g.
  - left. split; reflexivity.
Qed.

Lemma lstrip_head (s : str) :
  lstrip s = [] \/ exists c r, lstrip s = c :: r /\ isspace c = false.
Proof.
  induction s as [|c s IH]; simpl; [now left|].
  destruct (isspace c) eqn:Hc; [exact IH|]. right. now exists c, s.
Qed.

(** A trimmed string that is not empty has a word. *)
Lemma strip_has_word (g : str) :
  truthy (strip g) = true -> exists w ws, split (strip g) = w :: ws.
Proof.
  intros Ht. destruct (split (strip g)) as [|w ws] eqn:Hsplit; [|now exists w, ws].
  exfalso. apply split_nil_iff in Hsplit.
  unfold strip, rstrip in *.
  destruct (lstrip_head (rev (lstrip g))) as [Hnil | (c & r & Heq & Hc)].
  - rewrite Hnil in Ht. discriminate.
  - rewrite Heq in Hsplit. simpl in Hsplit.
    apply Forall_app in Hsplit as [_ Hsplit]. inversion Hsplit; congruence.
Qed.

(** ** The overlay *)

(** With a receiver that has a word the overlay is drawn. *)
Lemma create_overlay_ok (subcon receiver date_str w : str) (ws : list str) :
  split receiver = w :: ws ->
  exists lay,
    layout subcon = Ok lay /\
    create_overlay subcon receiver date_str
    = Ok (overlay_ops lay (capitalize w) date_str).
Proof.
  intros Hsplit. unfold create_overlay.
  destruct (layout_of_lines subcon) as (l1 & l2 & n & _ & _ & Hlay).
  eexists. split; [exact Hlay|]. rewrite Hlay. simpl bind.
  pose proof (signature_name_cases receiver) as Hsig. rewrite Hsplit in Hsig.
  rewrite Hsig. reflexivity.
Qed.

Lemma overlay_shows_line1 (lay : LayoutResult) (first_name date_str : str) :
  In (drawString 510 742 (line1 lay)) (overlay_ops lay first_name date_str).
Proof. unfold overlay_ops. simpl. auto. Qed.

Lemma overlay_shows_first_name (lay : LayoutResult) (first_name date_str : str) :
  In (drawString 520 665 first_name) (overlay_ops lay first_name date_str).
Proof.
  unfold overlay_ops. apply in_or_app. right. apply in_or_app. right.
  simpl. auto.
Qed.

(** ** Merging *)

Lemma skipn_nth_error {A : Type} (l : list A) (i : nat) (x : A) :
  nth_error l i = Some x -> skipn i l = x :: skipn (S i) l.
Proof.
  revert i. induction l as [|y l IH]; intros [|i] H; simpl in *; try discriminate.
  - now injection H as ->.
  - now apply IH.
Qed.

Section MergeFacts.
Variable PageObject : Type.
Variable merge_page : PageObject -> PageObject -> PageObject.

(** The loop of lines 148-149 appends the pages from [a] on. *)
Lemma add_remaining_pages (existing : list PageObject) (k : nat) :
  forall (a : nat) (output : list PageObject),
    a + k <= length existing ->
    for_each (seq a k)
      (fun i output => p <- page_at existing i ;; Ok (output ++ [p])) output
    = Ok (output ++ firstn k (skipn a existing)).
Proof.
  induction k as [|k IH]; intros a output Hlen; simpl.
  - now rewrite app_nil_r.
  - destruct (nth_error existing a) as [x|] eqn:Hx.
    + unfold page_at at 1. rewrite Hx. simpl. rewrite IH by lia.
      rewrite (skipn_nth_error _ _ Hx). simpl. now rewrite <- app_assoc.
    + apply nth_error_None in Hx. lia.
Qed.

Lemma merge_overlay_cons (page0 new_page : PageObject) (rest : list PageObject) :
  merge_overlay merge_page (page0 :: rest) [new_page]
  = Ok (merge_page page0 new_page :: rest).
Proof.
  unfold merge_overlay, range. simpl page_at. simpl bind. simpl length.
  rewrite Nat.sub_0_r, add_remaining_pages by (simpl; lia).
  simpl. now rewrite firstn_all.
Qed.
End MergeFacts.

(** C8: for a source document with at least one page, merging gives a
    document with as many pages, in the same order: the first is the source's
    first page with the overlay page merged onto it, every later page is the
    source's page unchanged. *)
Theorem merge_keeps_pages (PageObject : Type)
  (merge_page : PageObject -> PageObject -> PageObject)
  (existing_pdf : list PageObject) (new_page : PageObject) :
  1 <= length existing_pdf ->
  exists output,
    merge_overlay merge_page existing_pdf [new_page] = Ok output /\
    length output = length existing_pdf /\
    nth_error output 0
    = option_map (fun page => merge_page page new_page) (nth_error existing_pdf 0) /\
    forall i, 1 <= i -> nth_error output i = nth_error existing_pdf i.
Proof.
  intros Hlen. destruct existing_pdf as [|page0 rest]; [simpl in Hlen; lia|].
  exists (merge_page page0 new_page :: rest).
  split; [apply merge_overlay_cons|]. split; [reflexivity|]. split; [reflexivity|].
  intros [|i] Hi; [lia | reflexivity].
Qed.

Lemma merge_keeps_pages_witness :
  let existing_pdf := [mkPage (py "p1") []; mkPage (py "p2") []] in
  let new_page := simple_canvas_page [drawString 500 642 (py "04/11/2026")] in
  1 <= length existing_pdf /\
  exists output,
    merge_overlay simple_merge_page existing_pdf [new_page] = Ok output /\
    length output = length existing_pdf /\
    nth_error output 0
    = option_map (fun page => simple_merge_page page new_page)
        (nth_error existing_pdf 0) /\
    forall i, 1 <= i -> nth_error output i = nth_error existing_pdf i.
Proof.
  split.
  - simpl. lia.
  - apply (@merge_keeps_pages SimplePage simple_merge_page). simpl. lia.
Defined.

(** ** The application *)

Section MainFacts.
Variable PageObject : Type.
Variable extract_text : PageObject -> outcome str.
Variable merge_page : PageObject -> PageObject -> PageObject.
Variable canvas_page : list canvas_op -> PageObject.

Local Abbreviation run_main := (main extract_text merge_page canvas_page).

Lemma first_page_text_ok (f : UploadedFile PageObject) (page0 : PageObject)
  (rest : list PageObject) :
  PdfReader_pages f = Ok (page0 :: rest) ->
  first_page_text extract_text f = extract_text page0.
Proof. unfold first_page_text. now intros ->. Qed.

Lemma extract_info_ok (f : UploadedFile PageObject) (text subcon receiver : str)
  (ui : list (ui_event PageObject)) :
  first_page_text extract_text f = Ok text ->
  extract_fields text = Ok (subcon, receiver) ->
  extract_info extract_text f ui = (Ok (Some subcon, Some receiver), ui).
Proof.
  intros Ht Hf. unfold extract_info, try_except, app_bind, lift, ret.
  now rewrite Ht, Hf.
Qed.

Lemma extract_info_raise (f : UploadedFile PageObject) (e : exn)
  (ui : list (ui_event PageObject)) :
  first_page_text extract_text f = Raise e ->
  extract_info extract_text f ui
  = (Ok (None, None), ui ++ [error (py "Error extracting info: " ++ exn_str e)]).
Proof.
  intros Ht. unfold extract_info, try_except, app_bind, lift, ret, show.
  now rewrite Ht.
Qed.

(** Both fields non-empty: the overlay is made and the signed document
    offered. *)
Lemma main_signs (f : UploadedFile PageObject) (page0 : PageObject)
  (rest : list PageObject) (text subcon receiver now_date now_time : str)
  (overlay : list canvas_op) :
  PdfReader_pages f = Ok (page0 :: rest) ->
  extract_text page0 = Ok text ->
  extract_fields text = Ok (subcon, receiver) ->
  truthy subcon && truthy receiver = true ->
  create_overlay subcon receiver now_date = Ok overlay ->
  run_main (Some f) now_date now_time []
  = (Ok tt,
     preamble ++
     [success (py "✅ Found **" ++ subcon ++ py "** | Receiver: **" ++ receiver ++ py "**");
      write _ (py "---");
      download_button (py "Download Signed PDF")
        (merge_page page0 (canvas_page overlay) :: rest)
        (signed_name (name f) now_time) (py "application/pdf")]).
Proof.
  intros Hpages Htext Hfields Htruthy Hoverlay.
  unfold main, app_bind at 1 2 3 4 5 6, show at 1 2 3 4 5. simpl.
  rewrite (@extract_info_ok f text subcon receiver)
    by (try rewrite (first_page_text_ok _ Hpages); assumption).
  cbn [truthy_opt fmt]. rewrite Htruthy.
  unfold app_bind, show, lift. rewrite Hoverlay, Hpages, merge_overlay_cons.
  reflexivity.
Qed.

(** A field that is empty or [None]: an error is shown and nothing else. *)
Lemma main_refuses (f : UploadedFile PageObject) (text subcon receiver : str)
  (now_date now_time : str) :
  first_page_text extract_text f = Ok text ->
  extract_fields text = Ok (subcon, receiver) ->
  truthy subcon && truthy receiver = false ->
  run_main (Some f) now_date now_time [] = (Ok tt, preamble ++ [could_not_extract]).
Proof.
  intros Htext Hfields Htruthy.
  unfold main, app_bind at 1 2 3 4 5 6, show at 1 2 3 4 5. simpl.
  rewrite (@extract_info_ok f text subcon receiver) by assumption.
  cbn [truthy_opt fmt]. rewrite Htruthy. reflexivity.
Qed.

Lemma main_extraction_raises (f : UploadedFile PageObject) (e : exn)
  (now_date now_time : str) :
  first_page_text extract_text f = Raise e ->
  run_main (Some f) now_date now_time []
  = (Ok tt,
     preamble ++
     [error (py "Error extracting info: " ++ exn_str e); could_not_extract]).
Proof.
  intros Hraise.
  unfold main, app_bind at 1 2 3 4 5 6, show at 1 2 3 4 5. simpl.
  rewrite extract_info_raise with (e := e) by assumption. reflexivity.
Qed.
End MainFacts.

Lemma layout_unknown : layout (py "Unknown") = Ok (mkLayout (py "Unknown") [] 6).
Proof. reflexivity. Qed.

Lemma extract_fields_eq (text subcon receiver : str) :
  extract_subcon text = Ok subcon ->
  extract_receiver text = Ok receiver ->
  extract_fields text = Ok (subcon, receiver).
Proof. intros Hs Hr. unfold extract_fields. now rewrite Hs, Hr. Qed.

Lemma in_last3 {A : Type} (l : list A) (a b c : A) : In c (l ++ [a; b; c]).
Proof. apply in_or_app. right. simpl. auto. Qed.

Lemma no_download_preamble {PageObject : Type} (l : list (ui_event PageObject)) :
  offers_download l = false -> offers_download (preamble ++ l) = false.
Proof. intros H. unfold offers_download in *. now rewrite existsb_app, H. Qed.

(** ** Claims about the application *)

(** C7: if reading the text of the first page raises, the extractor shows
    the failure, returns no field instead of raising, and [main] shows an
    error and stops: no overlay is made and no document is offered. *)
Theorem extraction_failure_halts (PageObject : Type)
  (extract_text : PageObject -> outcome str)
  (merge_page : PageObject -> PageObject -> PageObject)
  (canvas_page : list canvas_op -> PageObject)
  (f : UploadedFile PageObject) (e : exn) (now_date now_time : str) :
  first_page_text extract_text f = Raise e ->
  (forall ui,
      extract_info extract_text f ui
      = (Ok (None, None),
         ui ++ [error (py "Error extracting info: " ++ exn_str e)])) /\
  main extract_text merge_page canvas_page (Some f) now_date now_time []
  = (Ok tt,
     preamble ++
     [error (py "Error extracting info: " ++ exn_str e); could_not_extract]) /\
  offers_download
    (snd (main extract_text merge_page canvas_page (Some f) now_date now_time []))
  = false.
Proof.
  intros Hraise. split; [|split].
  - intros ui. now apply extract_info_raise.
  - now apply main_extraction_raises.
  - rewrite main_extraction_raises with (e := e) by assumption. reflexivity.
Qed.

Lemma extraction_failure_halts_witness :
  let f := mkUpload (py "note.pdf")
             (Raise (PdfReadError (py "EOF marker not found"))) in
  let e := PdfReadError (py "EOF marker not found") in
  first_page_text simple_extract_text f = Raise e /\
  simple_main (Some f) (py "04/11/2026") (py "101500") []
  = (Ok tt,
     preamble ++
     [error (py "Error extracting info: EOF marker not found"); could_not_extract]).
Proof.
  split; [reflexivity|].
  exact (proj1 (proj2 (@extraction_failure_halts SimplePage simple_extract_text
                         simple_merge_page simple_canvas_page
                         (mkUpload (py "note.pdf")
                            (Raise (PdfReadError (py "EOF marker not found"))))
                         (PdfReadError (py "EOF marker not found"))
                         (py "04/11/2026") (py "101500") eq_refl))).
Defined.

(** C6, as amended: a field whose pattern finds no match is the non-empty
    string "Unknown".  When the other field is not empty the check on both
    fields passes, the overlay is made, the signed document is offered, and
    "Unknown" is drawn as the value of the missing field; when the other
    field was matched but is empty the check fails, the error "Could not
    extract ..." is shown and nothing is offered. *)
Theorem unknown_field_is_rendered (PageObject : Type)
  (extract_text : PageObject -> outcome str)
  (merge_page : PageObject -> PageObject -> PageObject)
  (canvas_page : list canvas_op -> PageObject)
  (f : UploadedFile PageObject) (page0 : PageObject) (rest : list PageObject)
  (text now_date now_time : str) :
  PdfReader_pages f = Ok (page0 :: rest) ->
  extract_text page0 = Ok text ->
  subcon_missing text \/ receiver_missing text ->
  exists subcon receiver ui,
    extract_fields text = Ok (subcon, receiver) /\
    (subcon_missing text -> subcon = py "Unknown") /\
    (receiver_missing text -> receiver = py "Unknown") /\
    truthy (py "Unknown") = true /\
    main extract_text merge_page canvas_page (Some f) now_date now_time []
    = (Ok tt, ui) /\
    ((truthy subcon && truthy receiver = true /\
      exists overlay,
        create_overlay subcon receiver now_date = Ok overlay /\
        In (download_button (py "Download Signed PDF")
              (merge_page page0 (canvas_page overlay) :: rest)
              (signed_name (name f) now_time) (py "application/pdf")) ui /\
        (subcon_missing text -> In (drawString 510 742 (py "Unknown")) overlay) /\
        (receiver_missing text -> In (drawString 520 665 (py "Unknown")) overlay))
     \/
     (truthy subcon && truthy receiver = false /\
      In could_not_extract ui /\ offers_download ui = false)).
Proof.
  intros Hpages Htext Hmissing.
  assert (Hcases :
    exists subcon receiver,
      extract_fields text = Ok (subcon, receiver) /\
      (subcon_missing text -> subcon = py "Unknown") /\
      (receiver_missing text -> receiver = py "Unknown") /\
      (truthy receiver = true -> exists w ws, split receiver = w :: ws)).
  { destruct (extract_subcon_cases text) as [[Hs1 Hs2] | [Hs1 (gs & Hs2)]];
      destruct (extract_receiver_cases text) as [[Hr1 Hr2] | [Hr1 (gr & Hr2)]].
    - exists (py "Unknown"), (py "Unknown").
      split; [now apply extract_fields_eq|]. split; [reflexivity|].
      split; [reflexivity|]. intros _. now exists (py "Unknown"), [].
    - exists (py "Unknown"), (strip gr).
      split; [now apply extract_fields_eq|]. split; [reflexivity|].
      split; [contradiction|]. apply strip_has_word.
    - exists (replace [LF] [SP] (strip gs)), (py "Unknown").
      split; [now apply extract_fields_eq|]. split; [contradiction|].
      split; [reflexivity|]. intros _. now exists (py "Unknown"), [].
    - destruct Hmissing; contradiction. }
  destruct Hcases as (subcon & receiver & Hfields & Hsub & Hrec & Hword).
  destruct (truthy subcon && truthy receiver) eqn:Htruthy.
  - apply andb_true_iff in Htruthy as [Hts Htr].
    destruct (Hword Htr) as (w & ws & Hsplit).
    destruct (@create_overlay_ok subcon receiver now_date w ws Hsplit)
      as (lay & Hlay & Hoverlay).
    exists subcon, receiver. eexists.
    split; [exact Hfields|]. split; [exact Hsub|]. split; [exact Hrec|].
    split; [reflexivity|]. split.
    + eapply main_signs; try eassumption. now rewrite Hts, Htr.
    + left. split; [now rewrite Hts, Htr|].
      exists (overlay_ops lay (capitalize w) now_date).
      split; [exact Hoverlay|]. split; [apply in_last3|]. split.
      * intros Hm. rewrite (Hsub Hm), layout_unknown in Hlay.
        injection Hlay as <-. apply (overlay_shows_line1 (mkLayout (py "Unknown") [] 6)).
      * intros Hm. rewrite (Hrec Hm) in Hsplit. injection Hsplit as <- _.
        apply overlay_shows_first_name.
  - exists subcon, receiver. eexists.
    split; [exact Hfields|]. split; [exact Hsub|]. split; [exact Hrec|].
    split; [reflexivity|]. split.
    + eapply main_refuses; try eassumption.
      now rewrite (first_page_text_ok _ _ Hpages).
    + right. split; [exact Htruthy|].
      split; [apply in_or_app; right; left; reflexivity | reflexivity].
Qed.

Lemma unknown_field_is_rendered_witness :
  let text := py "Delivery note 42" in
  let f := mkUpload (py "note.pdf") (Ok [mkPage text []]) in
  let now_date := py "04/11/2026" in
  let now_time := py "101500" in
  (PdfReader_pages f = Ok [mkPage text []] /\
   simple_extract_text (mkPage text []) = Ok text /\
   (subcon_missing text \/ receiver_missing text)) /\
  exists subcon receiver ui,
    extract_fields text = Ok (subcon, receiver) /\
    (subcon_missing text -> subcon = py "Unknown") /\
    (receiver_missing text -> receiver = py "Unknown") /\
    truthy (py "Unknown") = true /\
    simple_main (Some f) now_date now_time [] = (Ok tt, ui) /\
    ((truthy subcon && truthy receiver = true /\
      exists overlay,
        create_overlay subcon receiver now_date = Ok overlay /\
        In (download_button (py "Download Signed PDF")
              (simple_merge_page (mkPage text []) (simple_canvas_page overlay) :: [])
              (signed_name (name f) now_time) (py "application/pdf")) ui /\
        (subcon_missing text -> In (drawString 510 742 (py "Unknown")) overlay) /\
        (receiver_missing text -> In (drawString 520 665 (py "Unknown")) overlay))
     \/
     (truthy subcon && truthy receiver = false /\
      In could_not_extract ui /\ offers_download ui = false)).
Proof.
  split.
  - split; [reflexivity|]. split; [reflexivity|]. left. reflexivity.
  - apply (@unknown_field_is_rendered SimplePage simple_extract_text
             simple_merge_page simple_canvas_page
             (mkUpload (py "note.pdf") (Ok [mkPage (py "Delivery note 42") []]))
             (mkPage (py "Delivery note 42") []) []
             (py "Delivery note 42") (py "04/11/2026") (py "101500")).
    + reflexivity.
    + reflexivity.
    + left. reflexivity.
Defined.

(** C6, as the claim words it, fails on a first page reading
    "Site Receiver: /": the subcon pattern finds no match, the receiver is
    matched but empty, the check on both fields fails and no document is
    offered. *)
Lemma unknown_with_empty_receiver_halts :
  let text := py "Site Receiver: /" in
  let f := mkUpload (py "note.pdf") (Ok [mkPage text []]) in
  subcon_missing text /\
  extract_fields text = Ok (py "Unknown", []) /\
  simple_main (Some f) (py "04/11/2026") (py "101500") []
  = (Ok tt, preamble ++ [could_not_extract]) /\
  ~ unknown_continues_as_specified.
Proof.
  split; [reflexivity|]. split; [reflexivity|]. split; [reflexivity|].
  intros H.
  specialize (H (mkUpload (py "note.pdf") (Ok [mkPage (py "Site Receiver: /") []]))
                (mkPage (py "Site Receiver: /") []) []
                (py "04/11/2026") (py "101500") eq_refl (or_introl eq_refl)).
  discriminate H.
Qed.

(** ** Further properties of the layout and the scenarios of the
    specification *)

(** A name of at most two words and no split marker stays whole on line 1,
    and line 2 is empty. *)
Theorem short_name_on_one_line (subcon : str) :
  length (split subcon) <= 2 ->
  ~ has_sdn_word subcon ->
  exists r, layout subcon = Ok r /\ line1 r = subcon /\ line2 r = [].
Proof.
  intros Hlen Hno.
  destruct (layout_of_lines subcon) as (l1 & l2 & n & Hcase & _ & Hlay).
  eexists. split; [eassumption|]. simpl line1. simpl line2.
  apply sdn_index_none_iff in Hno.
  inversion Hcase as [k m1 m2 n' Hidx Hk Happ Hlen' Hne Hc | Hidx Hlen' mid | Hidx Hlen'];
    subst.
  - rewrite Hidx in Hno. lia.
  - lia.
  - split; reflexivity.
Qed.

Lemma short_name_on_one_line_witness :
  length (split (py "Unknown")) <= 2 /\
  exists r, layout (py "Unknown") = Ok r /\ line1 r = py "Unknown" /\ line2 r = [].
Proof.
  split; [simpl; lia|].
  apply short_name_on_one_line; [simpl; lia|].
  apply sdn_index_none_iff. reflexivity.
Defined.

(** The first end-to-end scenario: the fields found in the page text, the
    split at the marker, and the signature. *)
Theorem scenario_subcon_and_receiver :
  extract_fields (py "Subcon: ABC SDN BHD Site Receiver: Jane Doe 12345678/90")
  = Ok (py "ABC SDN BHD", py "Jane Doe") /\
  layout (py "ABC SDN BHD") = Ok (mkLayout (py "ABC") (py "SDN BHD") 6) /\
  signature_name (py "Jane Doe") = Ok (py "Jane").
Proof. repeat split; vm_compute; reflexivity. Qed.

(** The third scenario: the brand name forces the small font though both
    lines are short. *)
Theorem scenario_universal_cellular :
  layout (py "UNIVERSAL CELLULAR SERVICES SDN BHD")
  = Ok (mkLayout (py "UNIVERSAL CELLULAR SERVICES") (py "SDN BHD") 4.5).
Proof. vm_compute. reflexivity. Qed.

(** ** Where the words of a name end up *)

Lemma sdn_index_clean_prefix (words : list str) (k : nat) :
  sdn_index words = Z.of_nat k ->
  Forall (fun w => sdn_in w = false) (firstn k words).
Proof.
  unfold sdn_index. intros Hk.
  destruct (find_sdn_cases words 0) as [[H1 _] | (k' & H1 & _ & H3 & _)].
  - rewrite H1 in Hk. lia.
  - rewrite H1 in Hk. assert (k' = k) by lia. now subst.
Qed.

Lemma sdn_index_clean (words : list str) :
  sdn_index words = (-1)%Z -> Forall (fun w => sdn_in w = false) words.
Proof.
  unfold sdn_index. intros Hk.
  destruct (find_sdn_cases words 0) as [[_ H2] | (k' & H1 & _)]; [assumption|].
  rewrite H1 in Hk. lia.
Qed.

Lemma Forall_prefix {A : Type} (P : A -> Prop) (l1 l2 : list A) (k : nat) :
  length l1 <= k -> Forall P (firstn k (l1 ++ l2)) -> Forall P l1.
Proof.
  intros Hlen H. rewrite firstn_app, (@firstn_all2 _ k l1) in H by assumption.
  now apply Forall_app in H.
Qed.

Lemma Forall_firstn_of {A : Type} (P : A -> Prop) (l : list A) (k : nat) :
  Forall P l -> Forall P (firstn k l).
Proof.
  intros H. rewrite <- (firstn_skipn k l) in H. now apply Forall_app in H.
Qed.

Lemma no_marker_iff (w : str) :
  sdn_in w = false <-> ~ contains_ci (py "SDN") w.
Proof.
  rewrite <- sdn_in_iff. destruct (sdn_in w); split; intros H; easy.
Qed.

(** No word that carries the split marker ever stands on line 1: line 1 is
    made of words that come before the first marked word. *)
Theorem line1_never_holds_marker (subcon : str) :
  exists r,
    layout subcon = Ok r /\
    Forall (fun w => ~ contains_ci (py "SDN") w) (split (line1 r)).
Proof.
  destruct (layout_of_lines subcon) as (l1 & l2 & n & Hcase & _ & Hlay).
  eexists. split; [eassumption|]. simpl line1.
  eapply Forall_impl; [intros w Hw; apply no_marker_iff; exact Hw|].
  inversion Hcase as [k m1 m2 n' Hidx Hk Happ Hlen Hne Hc | Hidx Hlen mid | Hidx Hlen]; subst.
  - destruct (lines_case_words subcon m1 m2) as [H1 _]; [assumption|].
    rewrite split_join by assumption.
    apply sdn_index_clean_prefix in Hidx. rewrite <- Happ in Hidx.
    eapply Forall_prefix; [|exact Hidx]. lia.
  - destruct (lines_case_words subcon (firstn mid (split subcon)) (skipn mid (split subcon)))
      as [H1 _]; [apply firstn_skipn|].
    rewrite split_join by assumption.
    apply Forall_firstn_of. now apply sdn_index_clean.
  - now apply sdn_index_clean.
Qed.

(** With a split marker in the name, line 1 is longer than 30 characters
    only when it is a single word: the loop moves words to line 2 until
    line 1 fits or has one word left. *)
Theorem marked_line1_fits_or_is_one_word (subcon : str) :
  has_sdn_word subcon ->
  exists r,
    layout subcon = Ok r /\
    (len (line1 r) <= 30 \/ length (split (line1 r)) <= 1).
Proof.
  intros Hmarker.
  destruct (layout_of_lines subcon) as (l1 & l2 & n & Hcase & _ & Hlay).
  eexists. split; [eassumption|]. simpl line1.
  inversion Hcase as [k m1 m2 n' Hidx Hk Happ Hlen Hne Hc | Hidx Hlen mid | Hidx Hlen]; subst.
  - destruct (lines_case_words subcon m1 m2) as [H1 _]; [assumption|].
    rewrite split_join by assumption.
    unfold rebalance_cond in Hc. simpl in Hc.
    apply andb_false_iff in Hc as [Hc | Hc].
    + left. now apply Nat.ltb_ge in Hc.
    + right. now apply Nat.ltb_ge in Hc.
  - apply sdn_index_none_iff in Hidx. contradiction.
  - apply sdn_index_none_iff in Hidx. contradiction.
Qed.

Lemma marked_line1_fits_or_is_one_word_witness :
  let subcon := py "PERKHIDMATAN TELEKOMUNIKASI JAYA MAKMUR SDN BHD" in
  has_sdn_word subcon /\
  exists r,
    layout subcon = Ok r /\
    (len (line1 r) <= 30 \/ length (split (line1 r)) <= 1).
Proof.
  assert (H : has_sdn_word (py "PERKHIDMATAN TELEKOMUNIKASI JAYA MAKMUR SDN BHD")).
  { exists (py "SDN"). split; [do 4 right; left; reflexivity|].
    exists [], (py "SDN"), []. split; reflexivity. }
  split; [exact H | exact (marked_line1_fits_or_is_one_word H)].
Defined.

(** A name of more than two words without split marker is cut after
    floor(n/2)+1 of its n words: line 1 has more words than line 2, and
    line 2 has at least one. *)
Theorem unmarked_name_is_halved (subcon : str) :
  2 < length (split subcon) ->
  ~ has_sdn_word subcon ->
  exists r,
    layout subcon = Ok r /\
    split (line1 r) = firstn (length (split subcon) / 2 + 1) (split subcon) /\
    split (line2 r) = skipn (length (split subcon) / 2 + 1) (split subcon) /\
    0 < length (split (line2 r)) < length (split (line1 r)).
Proof.
  intros Hn Hno.
  destruct (layout_of_lines subcon) as (l1 & l2 & n & Hcase & _ & Hlay).
  eexists. split; [eassumption|]. simpl line1. simpl line2.
  apply sdn_index_none_iff in Hno.
  inversion Hcase as [k m1 m2 n' Hidx Hk Happ Hlen Hne Hc | Hidx Hlen mid | Hidx Hlen]; subst.
  - rewrite Hidx in Hno. lia.
  - destruct (lines_case_words subcon (firstn mid (split subcon)) (skipn mid (split subcon)))
      as [H1 H2]; [apply firstn_skipn|].
    rewrite !split_join by assumption. fold mid.
    split; [reflexivity|]. split; [reflexivity|].
    pose proof (half_lt Hlen) as Hmid. fold mid in Hmid.
    rewrite length_skipn, firstn_length_le by lia.
    pose proof (Nat.div_mod_eq (length (split subcon)) 2) as Hd.
    pose proof (Nat.mod_upper_bound (length (split subcon)) 2).
    unfold mid in *. lia.
  - lia.
Qed.

Lemma unmarked_name_is_halved_witness :
  let subcon := py "ALPHA BETA GAMMA DELTA" in
  2 < length (split subcon) /\
  exists r,
    layout subcon = Ok r /\
    split (line1 r) = firstn (length (split subcon) / 2 + 1) (split subcon) /\
    split (line2 r) = skipn (length (split subcon) / 2 + 1) (split subcon) /\
    0 < length (split (line2 r)) < length (split (line1 r)).
Proof.
  split; [simpl; lia|].
  apply unmarked_name_is_halved; [simpl; lia|].
  apply sdn_index_none_iff. reflexivity.
Defined.

Lemma join_app (l1 l2 : list str) :
  l1 <> [] -> l2 <> [] ->
  join [SP] (l1 ++ l2) = join [SP] l1 ++ [SP] ++ join [SP] l2.
Proof.
  intros H1 H2. induction l1 as [|w l1 IH]; [contradiction|].
  destruct l1 as [|w' l1].
  - simpl. destruct l2; [contradiction | reflexivity].
  - change (join [SP] ((w :: w' :: l1) ++ l2))
      with (w ++ [SP] ++ join [SP] ((w' :: l1) ++ l2)).
    rewrite IH by discriminate.
    change (join [SP] (w :: w' :: l1)) with (w ++ [SP] ++ join [SP] (w' :: l1)).
    now rewrite <- !app_assoc.
Qed.

(** When the layout fills both lines, line 1, a space and line 2 spell the
    name with every run of whitespace turned into one space and none at the
    ends: no character of a word is lost or added. *)
Theorem two_lines_spell_the_name (subcon : str) :
  exists r,
    layout subcon = Ok r /\
    (line1 r = [] \/ line2 r = [] \/
     line1 r ++ [SP] ++ line2 r = join [SP] (split subcon)).
Proof.
  destruct (layout_of_lines subcon) as (l1 & l2 & n & Hcase & _ & Hlay).
  eexists. split; [eassumption|]. simpl line1. simpl line2.
  inversion Hcase as [k m1 m2 n' Hidx Hk Happ Hlen Hne Hc | Hidx Hlen mid | Hidx Hlen]; subst.
  - destruct m1 as [|w m1]; [now left|]. destruct m2 as [|w' m2]; [right; now left|].
    right. right. rewrite <- Happ. symmetry. apply join_app; discriminate.
  - pose proof (half_lt Hlen) as Hmid. fold mid in Hmid.
    right. right. rewrite <- (firstn_skipn mid (split subcon)) at 3.
    symmetry. apply join_app.
    + intros Hnil. apply (f_equal (@length str)) in Hnil.
      rewrite firstn_length_le in Hnil by lia. simpl in Hnil. lia.
    + intros Hnil. apply (f_equal (@length str)) in Hnil.
      rewrite length_skipn in Hnil. simpl in Hnil. lia.
  - right. now left.
Qed.

(** ** When the overlay can be drawn *)

(** [create_overlay] fails in one case only: a receiver that is not empty
    but has no word makes it raise IndexError.  Otherwise it returns the
    overlay, signed with the capitalised first word of the receiver (with
    nothing for the empty receiver), whatever the name. *)
Theorem create_overlay_fails_only_on_blank_receiver
  (subcon receiver date_str : str) :
  (receiver <> [] /\ all_space receiver /\
   create_overlay subcon receiver date_str
   = Raise (IndexError (py "list index out of range")))
  \/
  ((receiver = [] \/ ~ all_space receiver) /\
   exists lay,
     layout subcon = Ok lay /\
     create_overlay subcon receiver date_str
     = Ok (overlay_ops lay (capitalize (hd [] (split receiver))) date_str)).
Proof.
  destruct (layout_of_lines subcon) as (l1 & l2 & n & _ & _ & Hlay).
  pose proof (signature_name_cases receiver) as Hsig.
  pose proof (split_nil_iff receiver) as Hnil. fold (all_space receiver) in Hnil.
  unfold create_overlay. rewrite Hlay. simpl bind.
  destruct (split receiver) as [|w ws] eqn:Hsplit.
  - destruct Hsig as [[-> Hsig] | [Hne Hsig]].
    + right. split; [now left|]. eexists. split; [reflexivity|]. reflexivity.
    + left. split; [assumption|]. split; [now apply Hnil|]. now rewrite Hsig.
  - right. split.
    + right. intros Hsp. apply Hnil in Hsp. discriminate.
    + eexists. split; [reflexivity|]. now rewrite Hsig.
Qed.

(** ** [extract_info] never raises, nor does the call of [create_overlay] *)

Lemma extract_fields_total (text : str) :
  exists subcon receiver,
    extract_fields text = Ok (subcon, receiver) /\
    (truthy receiver = true -> exists w ws, split receiver = w :: ws).
Proof.
  destruct (extract_subcon_cases text) as [[_ Hs] | [_ (gs & Hs)]];
    destruct (extract_receiver_cases text) as [[_ Hr] | [_ (gr & Hr)]];
    eexists; eexists; (split; [apply extract_fields_eq; eassumption|]);
    try apply strip_has_word; intros _; now exists (py "Unknown"), [].
Qed.

(** C3, as amended: the signature name is the empty string for the empty
    receiver, and the first token with its first letter capitalised and the
    rest lowercased for a receiver with a token; a receiver that is not
    empty and holds only whitespace has no token and makes line 87 raise
    IndexError.  No such receiver comes out of the extraction: on the
    receiver found in any page text the signature is as the claim words
    it. *)
Theorem signature_name_rule :
  (forall receiver,
      (receiver = [] /\ signature_name receiver = Ok [])
      \/
      (exists c r ws,
          split receiver = (c :: r) :: ws /\
          signature_name receiver = Ok (upper_char c :: str_lower r))
      \/
      (receiver <> [] /\ all_space receiver /\ split receiver = [] /\
       signature_name receiver
       = Raise (IndexError (py "list index out of range"))))
  /\
  (forall text,
      exists subcon receiver,
        extract_fields text = Ok (subcon, receiver) /\
        signature_name receiver
        = Ok match split receiver with
             | w :: _ => capitalize w
             | [] => []
             end).
Proof.
  split.
  - intros receiver.
    pose proof (signature_name_cases receiver) as Hsig.
    pose proof (split_words receiver) as Hwords.
    pose proof (split_nil_iff receiver) as Hnil.
    destruct (split receiver) as [|w ws] eqn:Hsplit.
    + destruct Hsig as [[Hempty Hsig] | [Hne Hsig]].
      * left. split; assumption.
      * right. right. split; [assumption|].
        split; [now apply Hnil|]. split; [reflexivity | assumption].
    + right. left. inversion Hwords as [|w' ws' [Hw _] _]; subst.
      destruct w as [|c r]; [now elim Hw|].
      exists c, r, ws. split; [reflexivity | exact Hsig].
  - intros text.
    destruct (extract_fields_total text) as (subcon & receiver & Hfields & Hword).
    exists subcon, receiver. split; [exact Hfields|].
    destruct receiver as [|c r]; [reflexivity|].
    destruct (Hword eq_refl) as (w & ws & Hsplit).
    pose proof (signature_name_cases (c :: r)) as Hsig.
    rewrite Hsplit in Hsig |- *. exact Hsig.
Qed.

(** [extract_info] never raises: it returns both fields and shows nothing,
    or it shows one error and returns [(None, None)], never one field
    without the other. *)
Theorem extract_info_never_raises (PageObject : Type)
  (extract_text : PageObject -> outcome str)
  (f : UploadedFile PageObject) (ui : list (ui_event PageObject)) :
  first_page_text extract_text f <> OutOfFuel ->
  (exists text subcon receiver,
      first_page_text extract_text f = Ok text /\
      extract_fields text = Ok (subcon, receiver) /\
      extract_info extract_text f ui = (Ok (Some subcon, Some receiver), ui))
  \/
  (exists e,
      first_page_text extract_text f = Raise e /\
      extract_info extract_text f ui
      = (Ok (None, None),
         ui ++ [error (py "Error extracting info: " ++ exn_str e)])).
Proof.
  intros Hfuel. destruct (first_page_text extract_text f) as [text|e|] eqn:Ht.
  - left. destruct (extract_fields_total text) as (subcon & receiver & Hf & _).
    exists text, subcon, receiver. split; [reflexivity|]. split; [assumption|].
    now apply extract_info_ok with (text := text).
  - right. exists e. split; [reflexivity|]. now apply extract_info_raise.
  - contradiction.
Qed.

Lemma extract_info_never_raises_witness :
  let f := mkUpload (py "note.pdf") (Ok []) in
  first_page_text simple_extract_text f <> OutOfFuel /\
  ((exists text subcon receiver,
       first_page_text simple_extract_text f = Ok text /\
       extract_fields text = Ok (subcon, receiver) /\
       extract_info simple_extract_text f []
       = (Ok (Some subcon, Some receiver), []))
   \/
   (exists e,
       first_page_text simple_extract_text f = Raise e /\
       extract_info simple_extract_text f []
       = (Ok (None, None),
          [] ++ [error (py "Error extracting info: " ++ exn_str e)]))).
Proof.
  split; [discriminate|].
  apply extract_info_never_raises. discriminate.
Defined.

(** The call of [create_overlay] in [main] (line 134) never raises: for
    every text of the first page, when the two extracted fields pass the
    check of line 129, [create_overlay] returns the overlay, signed with the
    capitalised first word of the receiver.  The receiver is "Unknown" or
    was trimmed, so it has a word whenever it is not empty. *)
Theorem overlay_call_never_raises (text date_str : str) :
  exists subcon receiver,
    extract_fields text = Ok (subcon, receiver) /\
    (truthy subcon && truthy receiver = true ->
     exists lay w ws,
       layout subcon = Ok lay /\ split receiver = w :: ws /\
       create_overlay subcon receiver date_str
       = Ok (overlay_ops lay (capitalize w) date_str)).
Proof.
  destruct (extract_fields_total text) as (subcon & receiver & Hfields & Hword).
  exists subcon, receiver. split; [exact Hfields|].
  intros Htruthy. apply andb_true_iff in Htruthy as [_ Htr].
  destruct (Hword Htr) as (w & ws & Hsplit).
  destruct (@create_overlay_ok subcon receiver date_str w ws Hsplit)
    as (lay & Hlay & Hoverlay).
  exists lay, w, ws. split; [exact Hlay|]. split; [exact Hsplit | exact Hoverlay].
Qed.

(** When both fields are found and neither is empty, [main] offers one
    document: the first page of the upload with the overlay merged onto it,
    then the other pages as they were, under the name made from the upload's
    name and the time.  The overlay is the layout of the subcon, the
    capitalised first word of the receiver and the date. *)
Theorem main_signs_the_document (PageObject : Type)
  (extract_text : PageObject -> outcome str)
  (merge_page : PageObject -> PageObject -> PageObject)
  (canvas_page : list canvas_op -> PageObject)
  (f : UploadedFile PageObject) (page0 : PageObject) (rest : list PageObject)
  (text subcon receiver now_date now_time : str) :
  PdfReader_pages f = Ok (page0 :: rest) ->
  extract_text page0 = Ok text ->
  extract_fields text = Ok (subcon, receiver) ->
  subcon <> [] ->
  receiver <> [] ->
  exists lay w ws,
    layout subcon = Ok lay /\
    split receiver = w :: ws /\
    main extract_text merge_page canvas_page (Some f) now_date now_time []
    = (Ok tt,
       preamble ++
       [success (py "✅ Found **" ++ subcon ++ py "** | Receiver: **"
                 ++ receiver ++ py "**");
        write _ (py "---");
        download_button (py "Download Signed PDF")
          (merge_page page0
             (canvas_page (overlay_ops lay (capitalize w) now_date)) :: rest)
          (signed_name (name f) now_time) (py "application/pdf")]).
Proof.
  intros Hpages Hpage Hfields Hs Hr.
  destruct (extract_fields_total text) as (s' & r' & Hfields' & Hword).
  rewrite Hfields in Hfields'. injection Hfields' as <- <-.
  assert (Htr : truthy receiver = true) by (destruct receiver; [contradiction | reflexivity]).
  assert (Hts : truthy subcon = true) by (destruct subcon; [contradiction | reflexivity]).
  destruct (Hword Htr) as (w & ws & Hsplit).
  destruct (@create_overlay_ok subcon receiver now_date w ws Hsplit)
    as (lay & Hlay & Hoverlay).
  exists lay, w, ws. split; [assumption|]. split; [assumption|].
  eapply main_signs; try eassumption. now rewrite Hts, Htr.
Qed.

Lemma main_signs_the_document_witness :
  let text := py "Subcon: ABC SDN BHD Site Receiver: Jane Doe/" in
  let page0 := mkPage text [] in
  let f := mkUpload (py "note.pdf") (Ok [page0; mkPage (py "page 2") []]) in
  (extract_fields text = Ok (py "ABC SDN BHD", py "Jane Doe") /\
   py "ABC SDN BHD" <> [] /\ py "Jane Doe" <> []) /\
  exists lay w ws,
    layout (py "ABC SDN BHD") = Ok lay /\
    split (py "Jane Doe") = w :: ws /\
    simple_main (Some f) (py "04/11/2026") (py "101500") []
    = (Ok tt,
       preamble ++
       [success (py "✅ Found **" ++ py "ABC SDN BHD" ++ py "** | Receiver: **"
                 ++ py "Jane Doe" ++ py "**");
        write _ (py "---");
        download_button (py "Download Signed PDF")
          (simple_merge_page page0
             (simple_canvas_page (overlay_ops lay (capitalize w) (py "04/11/2026")))
           :: [mkPage (py "page 2") []])
          (signed_name (py "note.pdf") (py "101500")) (py "application/pdf")]).
Proof.
  split.
  - split; [reflexivity|]. split; discriminate.
  - apply (@main_signs_the_document SimplePage simple_extract_text
             simple_merge_page simple_canvas_page
             (mkUpload (py "note.pdf")
                (Ok [mkPage (py "Subcon: ABC SDN BHD Site Receiver: Jane Doe/") [];
                     mkPage (py "page 2") []]))
             (mkPage (py "Subcon: ABC SDN BHD Site Receiver: Jane Doe/") [])
             [mkPage (py "page 2") []]
             (py "Subcon: ABC SDN BHD Site Receiver: Jane Doe/")).
    + reflexivity.
    + reflexivity.
    + reflexivity.
    + discriminate.
    + discriminate.
Defined.

(** ** What the extracted values look like *)

Lemma lstrip_suffix (s : str) : exists a, s = a ++ lstrip s /\ all_space a.
Proof.
  induction s as [|c s IH]; simpl.
  - exists []. split; [reflexivity | constructor].
  - destruct (isspace c) eqn:Hc.
    + destruct IH as (a & Hs & Ha). exists (c :: a). split.
      * simpl. now f_equal.
      * now constructor.
    + exists []. split; [reflexivity | constructor].
Qed.

Lemma rstrip_prefix (s : str) : exists b, s = rstrip s ++ b /\ all_space b.
Proof.
  unfold rstrip. destruct (lstrip_suffix (rev s)) as (a & Hs & Ha).
  exists (rev a). split.
  - rewrite <- rev_app_distr, <- Hs. symmetry. apply rev_involutive.
  - now apply Forall_rev.
Qed.

(** Trimming keeps a stretch of the string. *)
Lemma strip_infix (g : str) : exists a b, g = a ++ strip g ++ b.
Proof.
  unfold strip. destruct (lstrip_suffix g) as (a & Hg & _).
  destruct (rstrip_prefix (lstrip g)) as (b & Hl & _).
  exists a, b. now rewrite <- Hl.
Qed.

Lemma lstrip_idem (s : str) : lstrip (lstrip s) = lstrip s.
Proof.
  destruct (lstrip_head s) as [-> | (c & r & -> & Hc)]; [reflexivity|].
  simpl. now rewrite Hc.
Qed.

Lemma rstrip_idem (s : str) : rstrip (rstrip s) = rstrip s.
Proof. unfold rstrip. now rewrite rev_involutive, lstrip_idem. Qed.

Lemma lstrip_rstrip_lstrip (g : str) :
  lstrip (rstrip (lstrip g)) = rstrip (lstrip g).
Proof.
  destruct (rstrip_prefix (lstrip g)) as (b & Hl & _).
  destruct (lstrip_head g) as [Hnil | (c & r & Heq & Hc)].
  - now rewrite Hnil.
  - rewrite Heq in *. destruct (rstrip (c :: r)) as [|d r'] eqn:Hr; [reflexivity|].
    injection Hl as <- _. simpl. now rewrite Hc.
Qed.

(** Trimming twice is trimming once. *)
Lemma strip_idem (g : str) : strip (strip g) = strip g.
Proof. unfold strip. now rewrite lstrip_rstrip_lstrip, rstrip_idem. Qed.

Lemma lstrip_map (f : ascii -> ascii) (s : str) :
  (forall c, isspace (f c) = isspace c) ->
  lstrip (map f s) = map f (lstrip s).
Proof.
  intros Hf. induction s as [|c s IH]; simpl; [reflexivity|].
  rewrite Hf. destruct (isspace c); [exact IH | reflexivity].
Qed.

Lemma strip_map (f : ascii -> ascii) (s : str) :
  (forall c, isspace (f c) = isspace c) ->
  strip (map f s) = map f (strip s).
Proof.
  intros Hf. unfold strip, rstrip.
  now rewrite lstrip_map, <- map_rev, lstrip_map, map_rev by assumption.
Qed.

Lemma line_break_to_space_keeps_space (c : ascii) :
  isspace (if Ascii.eqb c LF then SP else c) = isspace c.
Proof.
  destruct (Ascii.eqb c LF) eqn:Hc; [|reflexivity].
  apply Ascii.eqb_eq in Hc. now subst.
Qed.

Lemma replace_char_no_LF (s : str) : ~ In LF (replace_char LF SP s).
Proof.
  unfold replace_char. intros Hin. apply in_map_iff in Hin as (c & Hc & _).
  destruct (Ascii.eqb c LF) eqn:Heq; [discriminate Hc|].
  apply Ascii.eqb_neq in Heq. contradiction.
Qed.

(** Both extracted values are trimmed: they have no whitespace at either
    end (trimming them again changes nothing), and the subcon has no line
    break left. *)
Theorem extracted_fields_are_trimmed (text : str) :
  exists subcon receiver,
    extract_fields text = Ok (subcon, receiver) /\
    strip subcon = subcon /\ strip receiver = receiver /\ ~ In LF subcon.
Proof.
  destruct (extract_subcon_cases text) as [[_ Hs] | [_ (gs & Hs)]];
    destruct (extract_receiver_cases text) as [[_ Hr] | [_ (gr & Hr)]];
    eexists; eexists; (split; [apply extract_fields_eq; eassumption|]);
    rewrite ?replace_one_char; unfold replace_char;
    rewrite ?strip_map, ?strip_idem by apply line_break_to_space_keeps_space;
    repeat split; try reflexivity; try apply replace_char_no_LF;
    vm_compute; intuition discriminate.
Qed.

(** ** The receiver stops at the first terminator *)

Lemma to_terminator_at_terminator (s2 term rest : str) :
  receiver_terminator term -> to_terminator s2 (term ++ rest) <> None.
Proof.
  intros [-> | [Hlen Hd]]; unfold to_terminator.
  - discriminate.
  - destruct (match_lit receiver_flags (py "/") (term ++ rest)); [discriminate|].
    intros Hn.
    eapply rep_greedy_None with (a := term) (b := rest) in Hn;
      [discriminate Hn | reflexivity | exact Hd | exact Hlen].
Qed.

Lemma terminator_not_empty (term : str) : receiver_terminator term -> term <> [].
Proof.
  intros [-> | [Hlen _]]; [discriminate|]. intros ->. simpl in Hlen. lia.
Qed.

(** The run the receiver pattern captures holds no terminator: the lazy
    group stops at the first place where one starts. *)
Lemma exec_receiver_shortest (s : str) (m : Match) :
  exec receiver_flags receiver_pattern s None found = Some m ->
  exists g, m = mkMatch (Some g) /\ ~ has_terminator g.
Proof.
  rewrite exec_receiver_pattern.
  destruct (match_lit receiver_flags (py "Site Receiver:") s) as [s1|]; [|discriminate].
  intros H. apply rep_greedy_Some in H as (ws & s2 & _ & _ & _ & H).
  apply rep_lazy_Some in H as (g & s3 & -> & _ & H & Hmin).
  apply to_terminator_Some in H as (-> & _).
  rewrite firstn_app_length. exists g. split; [reflexivity|].
  intros (a & term & b & -> & Hterm).
  apply (@to_terminator_at_terminator ((a ++ term ++ b) ++ s3) term (b ++ s3) Hterm).
  apply (Hmin a (term ++ b ++ s3)).
  - now rewrite <- !app_assoc.
  - pose proof (terminator_not_empty Hterm) as Hne.
    rewrite !length_app. destruct term; [contradiction | simpl; lia].
Qed.

Lemma strip_keeps_no_terminator (g : str) :
  ~ has_terminator g -> ~ has_terminator (strip g).
Proof.
  intros Hg (x & term & y & Heq & Hterm). apply Hg.
  destruct (strip_infix g) as (a & b & Hgs).
  exists (a ++ x), term, (y ++ b). split; [|assumption].
  rewrite Hgs at 1. rewrite Heq. now rewrite <- !app_assoc.
Qed.

Lemma unknown_has_no_terminator : ~ has_terminator (py "Unknown").
Proof.
  intros (a & term & b & Heq & [-> | [Hlen _]]).
  - assert (Hin : In "/"%char (py "Unknown")).
    { rewrite Heq. apply in_or_app. right. now left. }
    simpl in Hin. intuition discriminate.
  - apply (f_equal (@length ascii)) in Heq. rewrite !length_app in Heq.
    simpl in Heq. lia.
Qed.

(** The receiver value never contains a slash, nor eight digits in a row:
    the value ends before the first of them after the label. *)
Theorem receiver_holds_no_terminator (text : str) :
  exists receiver,
    extract_receiver text = Ok receiver /\ ~ has_terminator receiver.
Proof.
  unfold extract_receiver.
  destruct (search receiver_flags receiver_pattern text) as [m|] eqn:Hs.
  - apply search_Some in Hs as (pre & s & _ & Hexec & _).
    apply exec_receiver_shortest in Hexec as (g & -> & Hg).
    exists (strip g). split; [reflexivity|]. now apply strip_keeps_no_terminator.
  - exists (py "Unknown"). split; [reflexivity | apply unknown_has_no_terminator].
Qed.

(** ** The name of the signed file *)

Lemma replace_from_skip (old new x b : str) :
  replace_from old new (length x) (x ++ b) = replace_from old new 0 b.
Proof. induction x as [|c x IH]; simpl; [reflexivity | exact IH]. Qed.

(** Text without the first character of [old] is copied as it is. *)
Lemma replace_clean_prefix (c0 : ascii) (old' new a s : str) :
  ~ In c0 a ->
  replace (c0 :: old') new (a ++ s) = a ++ replace (c0 :: old') new s.
Proof.
  unfold replace. induction a as [|c a IH]; intros Hin; [reflexivity|].
  cbn [app replace_from startswith].
  destruct (Ascii.eqb c0 c) eqn:Hc.
  - apply Ascii.eqb_eq in Hc. subst. elim Hin. now left.
  - simpl. f_equal. apply IH. intros H. apply Hin. now right.
Qed.

(** An occurrence of [old] is replaced, and the scan goes on after it. *)
Lemma replace_at_occurrence (c0 : ascii) (old' new b : str) :
  replace (c0 :: old') new ((c0 :: old') ++ b)
  = new ++ replace (c0 :: old') new b.
Proof.
  unfold replace. cbn [app replace_from].
  assert (Hs : startswith (c0 :: old') (c0 :: old' ++ b) = true).
  { apply startswith_iff. now exists b. }
  rewrite Hs. f_equal.
  replace (length (c0 :: old') - 1) with (length old') by (simpl; lia).
  apply replace_from_skip.
Qed.

Lemma replace_clean (c0 : ascii) (old' new a : str) :
  ~ In c0 a -> replace (c0 :: old') new a = a.
Proof.
  intros Hin. rewrite <- (app_nil_r a) at 1.
  rewrite replace_clean_prefix by assumption. apply app_nil_r.
Qed.

(** The file name loses ".pdf" and ".PDF" wherever they stand, at the end
    or not, and nothing else: an extension in another case, like ".Pdf", is
    kept.  The result is the rest of the name, "_signed_", the time and
    ".pdf". *)
Theorem signed_name_drops_pdf (stem tail timestamp : str) :
  ~ In "."%char stem ->
  ~ In "."%char tail ->
  signed_name (stem ++ py ".pdf" ++ tail) timestamp
  = stem ++ tail ++ py "_signed_" ++ timestamp ++ py ".pdf" /\
  signed_name (stem ++ py ".PDF" ++ tail) timestamp
  = stem ++ tail ++ py "_signed_" ++ timestamp ++ py ".pdf" /\
  signed_name (stem ++ py ".Pdf" ++ tail) timestamp
  = stem ++ py ".Pdf" ++ tail ++ py "_signed_" ++ timestamp ++ py ".pdf".
Proof.
  intros Hstem Htail. unfold signed_name.
  assert (Hjoin : ~ In "."%char (stem ++ tail)).
  { intros H. apply in_app_or in H. tauto. }
  split; [|split].
  - change (py ".pdf") with ("."%char :: py "pdf") at 1 2.
    rewrite replace_clean_prefix, replace_at_occurrence, replace_clean by assumption.
    change (py ".PDF") with ("."%char :: py "PDF").
    rewrite replace_clean by assumption. now rewrite <- !app_assoc.
  - change (py ".pdf") with ("."%char :: py "pdf") at 1.
    rewrite replace_clean_prefix by assumption.
    change (replace ("."%char :: py "pdf") [] (py ".PDF" ++ tail))
      with ("."%char :: replace ("."%char :: py "pdf") [] (py "PDF" ++ tail)).
    rewrite (@replace_clean "."%char (py "pdf") [] (py "PDF" ++ tail)).
    + change ("."%char :: py "PDF" ++ tail) with (py ".PDF" ++ tail).
      change (py ".PDF") with ("."%char :: py "PDF").
      rewrite replace_clean_prefix, replace_at_occurrence, replace_clean by assumption.
      now rewrite <- !app_assoc.
    + simpl. intuition discriminate.
  - change (py ".pdf") with ("."%char :: py "pdf") at 1.
    rewrite replace_clean_prefix by assumption.
    change (replace ("."%char :: py "pdf") [] (py ".Pdf" ++ tail))
      with ("."%char :: replace ("."%char :: py "pdf") [] (py "Pdf" ++ tail)).
    rewrite (@replace_clean "."%char (py "pdf") [] (py "Pdf" ++ tail)).
    + change (py ".PDF") with ("."%char :: py "PDF").
      rewrite replace_clean_prefix by assumption.
      change (replace ("."%char :: py "PDF") [] ("."%char :: py "Pdf" ++ tail))
        with ("."%char :: replace ("."%char :: py "PDF") [] (py "Pdf" ++ tail)).
      rewrite (@replace_clean "."%char (py "PDF") [] (py "Pdf" ++ tail)).
      * change ("."%char :: py "Pdf" ++ tail) with (py ".Pdf" ++ tail).
        now rewrite <- !app_assoc.
      * simpl. intuition discriminate.
    + simpl. intuition discriminate.
Qed.

Lemma signed_name_drops_pdf_witness :
  (~ In "."%char (py "delivery_note") /\ ~ In "."%char (py "")) /\
  signed_name (py "delivery_note" ++ py ".pdf" ++ py "") (py "101500")
  = py "delivery_note" ++ py "" ++ py "_signed_" ++ py "101500" ++ py ".pdf".
Proof.
  assert (H1 : ~ In "."%char (py "delivery_note")) by (simpl; intuition discriminate).
  assert (H2 : ~ In "."%char (py "")) by (simpl; tauto).
  split; [split; assumption|].
  exact (proj1 (@signed_name_drops_pdf (py "delivery_note") (py "") (py "101500") H1 H2)).
Defined.
